(** * UI launcher utilities: configuration merge and process supervision

    A shallow embedding of [src/dp/agent/cli/templates/ui/ui_utils.py]:
    the class [UIConfigManager] (default document, deep merge, command-line
    overrides) and the class [UIProcessManager] (backend and frontend start-up,
    liveness polls, cleanup).

    Python values are a tagged tree; a [dict] is an association list in
    insertion order whose keys are pairwise distinct.  Calls that leave the
    interpreter (file system, child processes, the clock, the terminal) go
    through the interface [OS]; every call is recorded, with its answer, in a
    trace. *)

From Stdlib Require Import String Ascii List ZArith QArith Bool DecimalString.
Import ListNotations.
Local Open Scope list_scope.
Local Open Scope string_scope.

Set Implicit Arguments.
Set Warnings "-register-all".

(** ** Python values *)

Module Py.

(** The values [json.load] produces and click passes (floats, which no
    operation below inspects, are left out). *)
Inductive value : Type :=
| VNone
| VBool (b : bool)
| VInt (z : Z)
| VStr (s : string)
| VList (l : list value)
| VDict (d : list (string * value)).

Definition dict : Type := list (string * value).

(** Exceptions, by class; the argument is the message. *)
Inductive exn : Type :=
| KeyError (key : string)
| TypeError
| AttributeError
| FileNotFoundError (msg : string)
| RuntimeError (msg : string)
| CalledProcessError
| TimeoutExpired
| OSError
| UnicodeDecodeError.

(** [bool(v)] *)
Definition truthy (v : value) : bool :=
  match v with
  | VNone => false
  | VBool b => b
  | VInt z => negb (Z.eqb z 0)
  | VStr s => negb (String.eqb s "")
  | VList l => match l with [] => false | _ :: _ => true end
  | VDict d => match d with [] => false | _ :: _ => true end
  end.

(** [isinstance(v, dict)] *)
Definition is_dict (v : value) : bool :=
  match v with VDict _ => true | _ => false end.

(** A mapping with string keys in insertion order: [dict] for documents,
    and the type of [os.environ]. *)
Definition assoc (V : Type) : Type := list (string * V).

(** [d.get(k)]; [None] when [k not in d]. *)
Fixpoint get {V} (k : string) (d : assoc V) : option V :=
  match d with
  | [] => None
  | (k', v) :: rest => if String.eqb k k' then Some v else get k rest
  end.

(** [d[k] = v]: an existing key keeps its position, a new key goes last. *)
Fixpoint set {V} (k : string) (v : V) (d : assoc V) : assoc V :=
  match d with
  | [] => [(k, v)]
  | (k', v') :: rest =>
      if String.eqb k k' then (k, v) :: rest else (k', v') :: set k v rest
  end.

(** [list(d.keys())] *)
Definition keys {V} (d : assoc V) : list string := map fst d.

(** [d.get(k, default)] *)
Definition get_default {V} (k : string) (default : V) (d : assoc V) : V :=
  match get k d with Some v => v | None => default end.

(** [s.partition(sep)] for a one-character separator: the part before the
    first [sep], the separator found (empty if none), the part after. *)
Fixpoint partition (sep : ascii) (s : string) : string * string * string :=
  match s with
  | EmptyString => ("", "", "")
  | String c rest =>
      if Ascii.eqb c sep then ("", String sep "", rest)
      else let '(before, found, after) := partition sep rest in
           (String c before, found, after)
  end.

(** [c in s] for a character. *)
Fixpoint has_char (c : ascii) (s : string) : bool :=
  match s with
  | EmptyString => false
  | String c' rest => Ascii.eqb c' c || has_char c rest
  end.

(** [needle in hay] for strings. *)
Fixpoint contains (needle hay : string) : bool :=
  String.prefix needle hay
  || match hay with
     | EmptyString => false
     | String _ rest => contains needle rest
     end.

End Py.
Import Py.

(** ** A state and exception monad

    A computation reads and updates a state of type [S] and either returns a
    value or raises; the state changes made before a [raise] are kept, as in
    Python. *)

Definition M (S A : Type) : Type := S -> (exn + A) * S.

Definition ret {S A} (a : A) : M S A := fun s => (inr a, s).

Definition raise {S A} (e : exn) : M S A := fun s => (inl e, s).

Definition bind {S A B} (c : M S A) (k : A -> M S B) : M S B :=
  fun s =>
    match c s with
    | (inr a, s') => k a s'
    | (inl e, s') => (inl e, s')
    end.

Definition gets {S A} (f : S -> A) : M S A := fun s => (inr (f s), s).

Definition modify {S} (f : S -> S) : M S unit := fun s => (inr tt, f s).

(** [if c: body] *)
Definition when {S} (c : bool) (body : M S unit) : M S unit :=
  if c then body else ret tt.

Declare Scope py_scope.
Delimit Scope py_scope with py.
Notation "x <- c ;; k" := (bind c (fun x => k))
  (at level 61, c at next level, right associativity) : py_scope.
Notation "c ;; k" := (bind c (fun _ => k))
  (at level 61, right associativity) : py_scope.
Local Open Scope py_scope.

(** ** UIConfigManager *)

Module UIConfigManager.

Definition DEFAULT_CONFIG : dict :=
  [ ("agent", VDict
       [ ("module", VStr "agent");
         ("rootAgent", VStr "root_agent");
         ("name", VStr "DP Agent Assistant");
         ("description", VStr "AI Assistant powered by DP Agent SDK");
         ("welcomeMessage", VStr "欢迎使用 DP Agent Assistant！我可以帮助您进行科学计算、数据分析等任务。") ]);
    ("ui", VDict
       [ ("title", VStr "DP Agent Assistant");
         ("theme", VStr "light") ]);
    ("files", VDict
       [ ("output_directory", VStr "./output");
         ("watch_directories", VList [VStr "./output"]) ]);
    ("websocket", VDict
       [ ("port", VInt 8000);
         ("host", VStr "localhost") ]);
    ("server", VDict
       [ ("port", VInt 50002);
         ("host", VList [VStr "localhost"; VStr "127.0.0.1"]) ]) ].

(** [_deep_merge(base, update)], by recursion on the structure of the update:
    the loop over [update.items()] is the inner [fix], the recursive call
    descends into a nested update value. *)
Fixpoint deep_merge_items (update : value) : dict -> dict :=
  match update with
  | VDict items =>
      (fix loop (items : list (string * value)) (base : dict) : dict :=
         match items with
         | [] => base
         | (key, value) :: rest =>
             loop rest
               match get key base, value with
               | Some (VDict b), VDict _ =>
                   set key (VDict (deep_merge_items value b)) base
               | _, _ => set key value base
               end
         end) items
  | _ => fun base => base
  end.

Definition _deep_merge (base update : dict) : dict :=
  deep_merge_items (VDict update) base.

(** *** The class attribute and what shares its objects

    [DEFAULT_CONFIG] is one object for the whole interpreter, and
    [DEFAULT_CONFIG.copy()] is shallow: the new mapping has the keys of the
    class attribute and holds, under each, the very object the class
    attribute holds.  What changes such an object in place (the recursive
    call of [_deep_merge], an assignment of [update_from_cli]) changes it for
    the class attribute and for every configuration that holds it.

    Below, [class_default] is the value of the class attribute as it stands
    ([DEFAULT_CONFIG] above is what it is when the class is created), and a
    top-level entry of [self.config] is either the object the class attribute
    holds under the same key ([Shared]) or an object of the configuration's
    own ([Own]).  The class attribute never gets a new key or another object
    under a key: only the contents of its section objects change.  An object
    below the top level is reached through one section only, and lists and
    scalars are never changed in place, so their values describe them. *)
Inductive slot : Type :=
| Shared
| Own (v : value).

Record store : Type := Store {
  class_default : dict;
  self_config : assoc slot
}.

(** [DEFAULT_CONFIG.copy()] *)
Definition copy (class_default : dict) : assoc slot :=
  map (fun item => (fst item, if is_dict (snd item) then Shared else Own (snd item)))
      class_default.

(** The value of the object in a slot filed under [key]. *)
Definition deref (class_default : dict) (key : string) (x : slot) : value :=
  match x with
  | Shared => get_default key VNone class_default
  | Own v => v
  end.

(** The value of a configuration. *)
Definition view (class_default : dict) (config : assoc slot) : dict :=
  map (fun item => (fst item, deref class_default (fst item) (snd item))) config.

(** [self.config.get(key)], as a value. *)
Definition lookup (key : string) (st : store) : option value :=
  match get key (self_config st) with
  | Some x => Some (deref (class_default st) key x)
  | None => None
  end.

(** Give the object under [key] the contents [v], in place: in the class
    attribute when the object is shared with it. *)
Definition write (key : string) (v : value) (st : store) : store :=
  match get key (self_config st) with
  | Some Shared => Store (set key v (class_default st)) (self_config st)
  | _ => Store (class_default st) (set key (Own v) (self_config st))
  end.

(** The outer call [_deep_merge(base, update)] on a base that may share
    objects with the class attribute: where both sides hold a mapping the
    object of the base is merged in place and stays where it is, otherwise
    the entry becomes the object of the update. *)
Fixpoint _deep_merge_in_place (update : dict) (st : store) : store :=
  match update with
  | [] => st
  | (key, value) :: rest =>
      _deep_merge_in_place rest
        match lookup key st, value with
        | Some (VDict b), VDict u => write key (VDict (_deep_merge b u)) st
        | _, _ => Store (class_default st) (set key (Own value) (self_config st))
        end
  end.

(** [_load_config], given what the file holds ([None] when the file does not
    exist, otherwise the document [json.load] returned), as a computation on
    the class attribute. *)
Definition _load_config (file : option value) : M dict (assoc slot) :=
  fun class_default =>
    match file with
    | Some (VDict user_config) =>
        let st := _deep_merge_in_place user_config
                    (Store class_default (copy class_default)) in
        (inr (self_config st), UIConfigManager.class_default st)
    | Some _ => (inl AttributeError, class_default)
    | None => (inr (copy class_default), class_default)
    end.

(** [self.config[section][key] = v] *)
Definition setitem2 (section key : string) (v : value) : M dict unit :=
  fun config =>
    match get section config with
    | None => (inl (KeyError section), config)
    | Some (VDict d) => (inr tt, set section (VDict (set key v d)) config)
    | Some _ => (inl TypeError, config)
    end.

(** [kwargs.get(name)] *)
Definition kwargs_get (kwargs : dict) (name : string) : value :=
  get_default name VNone kwargs.

Definition update_from_cli (kwargs : dict) : M dict unit :=
  when (truthy (kwargs_get kwargs "agent"))
    match kwargs_get kwargs "agent" with
    | VStr spec =>
        let '(module, _, variable) := partition ":" spec in
        setitem2 "agent" "module" (VStr module) ;;
        when (truthy (VStr variable))
          (setitem2 "agent" "rootAgent" (VStr variable))
    | _ => raise AttributeError
    end ;;
  when (truthy (kwargs_get kwargs "port"))
    (setitem2 "server" "port" (kwargs_get kwargs "port")) ;;
  when (truthy (kwargs_get kwargs "ws_port"))
    (setitem2 "websocket" "port" (kwargs_get kwargs "ws_port")) ;;
  when (truthy (kwargs_get kwargs "host"))
    (setitem2 "server" "host" (VList [kwargs_get kwargs "host"]) ;;
     setitem2 "websocket" "host" (kwargs_get kwargs "host")).

(** [self.config[section][key] = v] on a configuration that may share
    objects with the class attribute. *)
Definition setitem2_in_place (section key : string) (v : value) : M store unit :=
  fun st =>
    match lookup section st with
    | None => (inl (KeyError section), st)
    | Some (VDict d) => (inr tt, write section (VDict (set key v d)) st)
    | Some _ => (inl TypeError, st)
    end.

(** The body of [update_from_cli] over the assignment it is given. *)
Definition update_from_cli_with {S}
    (setitem2 : string -> string -> value -> M S unit) (kwargs : dict)
  : M S unit :=
  when (truthy (kwargs_get kwargs "agent"))
    match kwargs_get kwargs "agent" with
    | VStr spec =>
        let '(module, _, variable) := partition ":" spec in
        setitem2 "agent" "module" (VStr module) ;;
        when (truthy (VStr variable))
          (setitem2 "agent" "rootAgent" (VStr variable))
    | _ => raise AttributeError
    end ;;
  when (truthy (kwargs_get kwargs "port"))
    (setitem2 "server" "port" (kwargs_get kwargs "port")) ;;
  when (truthy (kwargs_get kwargs "ws_port"))
    (setitem2 "websocket" "port" (kwargs_get kwargs "ws_port")) ;;
  when (truthy (kwargs_get kwargs "host"))
    (setitem2 "server" "host" (VList [kwargs_get kwargs "host"]) ;;
     setitem2 "websocket" "host" (kwargs_get kwargs "host")).

(** [update_from_cli] on a configuration that may share objects with the
    class attribute. *)
Definition update_from_cli_in_place (kwargs : dict) : M store unit :=
  update_from_cli_with setitem2_in_place kwargs.

End UIConfigManager.


(** ** The interpreter's surroundings *)

Definition path : Type := string.

(** [p / name] on [pathlib.Path] *)
Definition joinpath (p : path) (name : string) : path := p ++ "/" ++ name.
Notation "p // name" := (joinpath p name) (at level 40, left associativity).

(** A [subprocess.Popen] object, identified by the order of creation. *)
Definition proc : Type := nat.

(** The arguments of [subprocess.Popen]; [stderr] is always
    [subprocess.STDOUT], [stdout] the log file opened just before. *)
Record popen_args : Type := PopenArgs {
  cmd : list string;
  cwd : path;
  env : assoc string;
  stdout : path
}.

Inductive signum : Type := SIGINT | SIGTERM.
Inductive disposition : Type := SIG_IGN | Handler.

(** One call that leaves the interpreter, with its answer. *)
Inductive event : Type :=
| EvSignal (sig : signum) (d : disposition)
| EvOpen (file : path) (mode : string)
| EvPopen (a : popen_args) (res : exn + proc)
| EvRun (command : list string) (dir : path) (raised : option exn)
| EvSleep (seconds : Q)
| EvPoll (process : proc) (returncode : option Z)
| EvTerminate (process : proc) (raised : option exn)
| EvKill (process : proc) (raised : option exn)
| EvWait (process : proc) (timeout : option Q) (raised : option exn)
| EvRead (file : path) (res : exn + string)
| EvEcho (msg : string).

(** What the interpreter and the operating system provide, over a world of
    type [W].  [open], [exists], [sleep] and [poll] are taken to succeed;
    [Popen], [subprocess.run(check=True)], [terminate], [kill], [wait] and
    the reading of a file as text may raise. *)
Class Runtime (W : Type) : Type := {
  str_of : value -> string;                       (* str(v) *)
  os_environ : W -> assoc string;                 (* os.environ *)
  os_cwd : W -> path;                             (* Path.cwd() *)
  sys_executable : W -> string;
  os_exists : W -> path -> bool;                  (* Path.exists() *)
  os_signal : W -> signum -> disposition -> W;
  os_open : W -> path -> string -> W;
  os_popen : W -> popen_args -> W * (exn + proc);
  os_run : W -> list string -> path -> W * option exn;
  os_sleep : W -> Q -> W;
  os_poll : W -> proc -> W * option Z;
  os_terminate : W -> proc -> W * option exn;
  os_kill : W -> proc -> W * option exn;
  os_wait : W -> proc -> option Q -> W * option exn;
  os_read : W -> path -> W * (exn + string);
  os_echo : W -> string -> W
}.

(** ** UIProcessManager *)

Module UIProcessManager.

Section WithRuntime.
Context {W : Type} {rt : Runtime W}.

(** The instance attributes, the world, and the calls made so far (oldest
    first). *)
Record state : Type := State {
  ui_dir : path;
  config : dict;
  processes : list proc;
  world : W;
  trace : list event
}.

Definition with_processes (f : list proc -> list proc) (s : state) : state :=
  State (ui_dir s) (config s) (f (processes s)) (world s) (trace s).

(** A call with an answer: the world moves on and the event is recorded. *)
Definition call {A} (f : W -> W * A) (ev : A -> event) : M state A :=
  fun s =>
    let '(w, a) := f (world s) in
    (inr a, State (ui_dir s) (config s) (processes s) w (trace s ++ [ev a])%list).

(** A call without an answer. *)
Definition call_ (f : W -> W) (ev : event) : M state unit :=
  call (fun w => (f w, tt)) (fun _ => ev).

(** A read of the world that changes nothing. *)
Definition query {A} (f : W -> A) : M state A := gets (fun s => f (world s)).

Definition lift {A} (r : exn + A) : M state A :=
  match r with inl e => raise e | inr a => ret a end.

(** A call that may raise. *)
Definition call_raising (f : W -> W * option exn) (ev : option exn -> event)
  : M state unit :=
  raised <- call f ev ;;
  match raised with Some e => raise e | None => ret tt end.

Definition signal (sig : signum) (d : disposition) : M state unit :=
  call_ (fun w => os_signal w sig d) (EvSignal sig d).

Definition open (file : path) (mode : string) : M state unit :=
  call_ (fun w => os_open w file mode) (EvOpen file mode).

Definition Popen (a : popen_args) : M state proc :=
  res <- call (fun w => os_popen w a) (EvPopen a) ;; lift res.

Definition run_check (command : list string) (dir : path) : M state unit :=
  call_raising (fun w => os_run w command dir) (EvRun command dir).

Definition sleep (seconds : Q) : M state unit :=
  call_ (fun w => os_sleep w seconds) (EvSleep seconds).

Definition poll (process : proc) : M state (option Z) :=
  call (fun w => os_poll w process) (EvPoll process).

Definition terminate (process : proc) : M state unit :=
  call_raising (fun w => os_terminate w process) (EvTerminate process).

Definition kill (process : proc) : M state unit :=
  call_raising (fun w => os_kill w process) (EvKill process).

Definition wait (process : proc) (timeout : option Q) : M state unit :=
  call_raising (fun w => os_wait w process timeout) (EvWait process timeout).

(** [f.read()] on a file opened as text: the text, or the exception raised
    (a [UnicodeDecodeError] where the bytes are not text). *)
Definition read (file : path) : M state string :=
  res <- call (fun w => os_read w file) (EvRead file) ;; lift res.

Definition echo (msg : string) : M state unit :=
  call_ (fun w => os_echo w msg) (EvEcho msg).

(** [try: body / except: pass] *)
Definition try_pass (body : M state unit) : M state unit :=
  fun s => (inr tt, snd (body s)).

(** [for x in xs: body(x)] *)
Fixpoint for_each {A} (xs : list A) (body : A -> M state unit) : M state unit :=
  match xs with
  | [] => ret tt
  | x :: rest => body x ;; for_each rest body
  end.

(** [config.get(section, {}).get(key, default)] *)
Definition config_get2 (config : dict) (section key : string) (default : value)
  : exn + value :=
  match get section config with
  | None => inr default
  | Some (VDict d) => inr (get_default key default d)
  | Some _ => inl AttributeError
  end.

Definition _setup_signal_handlers : M state unit :=
  signal SIGINT Handler ;;
  signal SIGTERM Handler.

(** [UIProcessManager(ui_dir, config)] in the world [w]. *)
Definition __init__ (ui_dir : path) (config : dict) (w : W) : state :=
  snd (_setup_signal_handlers (State ui_dir config [] w [])).

Definition nl : string := String (ascii_of_nat 10) "".

Definition start_websocket_server : M state proc :=
  self_config <- gets config ;;
  ws_port <- lift (config_get2 self_config "server" "port" (VInt 8000)) ;;
  self_ui_dir <- gets ui_dir ;;
  let websocket_script := self_ui_dir // "websocket-server.py" in
  script_exists <- query (fun w => os_exists w websocket_script) ;;
  if negb script_exists then
    raise (FileNotFoundError ("找不到 websocket-server.py: " ++ websocket_script))
  else
    environ <- query os_environ ;;
    cwd1 <- query os_cwd ;;
    let env := set "AGENT_CONFIG_PATH"
                   (self_ui_dir // "config" // "agent-config.temp.json") environ in
    let env := set "USER_WORKING_DIR" cwd1 env in
    let env := set "UI_TEMPLATE_DIR" self_ui_dir env in
    let env := match get "PYTHONPATH" env with
               | Some old => set "PYTHONPATH" (cwd1 ++ ":" ++ old) env
               | None => set "PYTHONPATH" cwd1 env
               end in
    let log_file := cwd1 // "websocket.log" in
    open log_file "a" ;;
    executable <- query sys_executable ;;
    cwd2 <- query os_cwd ;;
    process <- Popen (PopenArgs [executable; websocket_script] cwd2 env log_file) ;;
    modify (with_processes (fun ps => ps ++ [process])%list) ;;
    sleep (2 # 1) ;;
    returncode <- poll process ;;
    match returncode with
    | Some _ => raise (RuntimeError "WebSocket 服务器启动失败")
    | None =>
        echo ("🚀 WebSocket 服务器已启动（端口 " ++ str_of ws_port ++ "）") ;;
        echo "📝 查看日志: websocket.log" ;;
        ret process
    end.

Definition start_frontend_server (dev_mode : bool) : M state (option proc) :=
  self_config <- gets config ;;
  server_port <- lift (config_get2 self_config "server" "port" (VInt 8000)) ;;
  self_ui_dir <- gets ui_dir ;;
  let ui_path := self_ui_dir // "frontend" in
  ui_exists <- query (fun w => os_exists w ui_path) ;;
  if negb ui_exists then
    raise (FileNotFoundError ("找不到 UI 目录: " ++ ui_path))
  else
    let dist_path := ui_path // "ui-static" in
    dist_exists <- query (fun w => os_exists w dist_path) ;;
    if dist_exists && negb dev_mode then
      echo ("✨ Agent UI 已启动: http://localhost:" ++ str_of server_port) ;;
      echo "📁 使用静态文件模式" ;;
      ret None
    else
      dist_exists' <- query (fun w => os_exists w dist_path) ;;
      dev_mode <- (if negb dev_mode && negb dist_exists' then
                     echo "警告: 未找到构建的静态文件，将使用开发模式" ;;
                     ret true
                   else ret dev_mode) ;;
      let node_modules := ui_path // "node_modules" in
      installed <- query (fun w => os_exists w node_modules) ;;
      when (negb installed)
        (echo "检测到未安装前端依赖，正在安装..." ;;
         run_check ["npm"; "install"] ui_path) ;;
      environ <- query os_environ ;;
      self_config <- gets config ;;
      frontend_dev_port <- lift (config_get2 self_config "frontend" "devPort" (VInt 3000)) ;;
      let env := set "FRONTEND_PORT" (str_of frontend_dev_port) environ in
      let env := set "VITE_WS_PORT" (str_of server_port) env in
      command <- (if dev_mode then
                    echo ("启动前端开发服务器 (端口: " ++ str_of frontend_dev_port ++ ")...") ;;
                    ret ["npm"; "run"; "dev"]
                  else
                    echo "构建前端生产版本..." ;;
                    ret ["npm"; "run"; "build"]) ;;
      cwd <- query os_cwd ;;
      let log_file_path := cwd // "frontend.log" in
      open log_file_path "a" ;;
      process <- Popen (PopenArgs command ui_path env log_file_path) ;;
      modify (with_processes (fun ps => ps ++ [process])%list) ;;
      sleep (3 # 1) ;;
      returncode <- poll process ;;
      match returncode with
      | Some _ =>
          open log_file_path "r" ;;
          error_log <- read log_file_path ;;
          if contains "EADDRINUSE" error_log then
            raise (RuntimeError ("端口 " ++ str_of frontend_dev_port ++ " 已被占用"))
          else
            raise (RuntimeError "前端服务器启动失败，请查看 frontend.log 了解详情")
      | None =>
          echo (nl ++ "✨ Agent UI 已启动: http://localhost:"
                   ++ str_of frontend_dev_port ++ nl) ;;
          ret (Some process)
      end.

Definition wait_for_processes : M state unit :=
  ps <- gets processes ;;
  for_each ps (fun process => wait process None).

(** A [Popen] object is always true, so [if process and process.poll() is
    None] is the test on [poll] alone. *)
Definition cleanup : M state unit :=
  ps <- gets processes ;;
  match ps with
  | [] => ret tt
  | _ :: _ =>
      for_each ps (fun process =>
        returncode <- poll process ;;
        match returncode with
        | None => try_pass (terminate process)
        | Some _ => ret tt
        end) ;;
      sleep (1 # 2) ;;
      for_each ps (fun process =>
        returncode <- poll process ;;
        match returncode with
        | None => try_pass (kill process ;; wait process (Some (1 # 2)))
        | Some _ => ret tt
        end) ;;
      modify (with_processes (fun _ => []))
  end.

Definition _signal_handler : M state unit :=
  signal SIGINT SIG_IGN ;;
  signal SIGTERM SIG_IGN ;;
  cleanup.

(** The calls made between two states of one run. *)
Definition emitted (before after : state) : list event :=
  skipn (length (trace before)) (trace after).

End WithRuntime.

Arguments state W : clear implicits.

End UIProcessManager.

(** ** A small simulated world, for running the model on samples *)

Module Sim.

Import UIProcessManager.

(** Existing paths, file contents, the command lines whose process exits at
    once (with return code 1), the processes that ignore SIGTERM, and the
    return code of every process created so far ([None] while it runs). *)
Record sim : Type := Sim {
  paths : list path;
  files : assoc string;
  exits_at_once : list (list string);
  ignores_sigterm : list proc;
  status : list (option Z)
}.

(** [str] on scalars; the samples interpolate no container. *)
Definition sim_str (v : value) : string :=
  match v with
  | VNone => "None"
  | VBool true => "True"
  | VBool false => "False"
  | VInt z => DecimalString.NilZero.string_of_int (Z.to_int z)
  | VStr s => s
  | VList _ => "[...]"
  | VDict _ => "{...}"
  end.

Definition same_command (c1 c2 : list string) : bool :=
  if list_eq_dec string_dec c1 c2 then true else false.

Fixpoint set_nth {A} (n : nat) (a : A) (l : list A) : list A :=
  match l, n with
  | [], _ => []
  | _ :: rest, O => a :: rest
  | x :: rest, S n' => x :: set_nth n' a rest
  end.

Definition returncode (w : sim) (p : proc) : option Z :=
  nth p (status w) (Some 0%Z).

Definition exit_with (code : Z) (w : sim) (p : proc) : sim :=
  match returncode w p with
  | None => Sim (paths w) (files w) (exits_at_once w) (ignores_sigterm w)
                (set_nth p (Some code) (status w))
  | Some _ => w
  end.

Definition sim_popen (w : sim) (a : popen_args) : sim * (exn + proc) :=
  let rc := if existsb (same_command (cmd a)) (exits_at_once w)
            then Some 1%Z else None in
  (Sim (paths w) (files w) (exits_at_once w) (ignores_sigterm w)
       (status w ++ [rc])%list,
   inr (length (status w))).

Definition sim_terminate (w : sim) (p : proc) : sim * option exn :=
  (if existsb (Nat.eqb p) (ignores_sigterm w) then w else exit_with (-15) w p,
   None).

#[export] Instance sim_runtime : Runtime sim := {
  str_of := sim_str;
  os_environ := fun _ => [("PATH", "/usr/bin")];
  os_cwd := fun _ => "/work";
  sys_executable := fun _ => "/usr/bin/python3";
  os_exists := fun w p => existsb (String.eqb p) (paths w);
  os_signal := fun w _ _ => w;
  os_open := fun w _ _ => w;
  os_popen := sim_popen;
  os_run := fun w _ _ => (w, None);
  os_sleep := fun w _ => w;
  os_poll := fun w p => (w, returncode w p);
  os_terminate := sim_terminate;
  os_kill := fun w p => (exit_with (-9) w p, None);
  os_wait := fun w _ _ => (w, None);
  os_read := fun w file => (w, inr (get_default file "" (files w)));
  os_echo := fun w _ => w
}.

(** The same worlds, except that no file there can be decoded as text: every
    read raises. *)
Definition sim_undecodable : Runtime sim := {|
  str_of := sim_str;
  os_environ := fun _ => [("PATH", "/usr/bin")];
  os_cwd := fun _ => "/work";
  sys_executable := fun _ => "/usr/bin/python3";
  os_exists := fun w p => existsb (String.eqb p) (paths w);
  os_signal := fun w _ _ => w;
  os_open := fun w _ _ => w;
  os_popen := sim_popen;
  os_run := fun w _ _ => (w, None);
  os_sleep := fun w _ => w;
  os_poll := fun w p => (w, returncode w p);
  os_terminate := sim_terminate;
  os_kill := fun w p => (exit_with (-9) w p, None);
  os_wait := fun w _ _ => (w, None);
  os_read := fun w _ => (w, inl UnicodeDecodeError);
  os_echo := fun w _ => w
|}.

(** The template directory installed at [/ui] with backend script and
    frontend sources, no prebuilt assets; nothing runs yet. *)
Definition fresh : sim :=
  Sim ["/ui/websocket-server.py"; "/ui/frontend"; "/ui/frontend/node_modules"]
      [] [] [] [].

(** The same with prebuilt static assets. *)
Definition prebuilt : sim :=
  Sim ("/ui/frontend/ui-static" :: paths fresh) [] [] [] [].

(** A world where the backend script exits as soon as it is launched. *)
Definition backend_crashes : sim :=
  Sim (paths fresh) [] [["/usr/bin/python3"; "/ui/websocket-server.py"]] [] [].

(** A world where the dev server finds its port taken. *)
Definition port_taken : sim :=
  Sim (paths fresh)
      [("/work/frontend.log", "Error: listen EADDRINUSE: address already in use :::3000")]
      [["npm"; "run"; "dev"]] [] [].

(** A world where the dev server, the second process created, ignores
    SIGTERM. *)
Definition stubborn_frontend : sim :=
  Sim (paths fresh) [] [] [1%nat] [].

(** A world where the frontend dependencies were never installed. *)
Definition uninstalled : sim :=
  Sim ["/ui/websocket-server.py"; "/ui/frontend"] [] [] [] [].

Definition manager (w : sim) : state sim :=
  __init__ "/ui" UIConfigManager.DEFAULT_CONFIG w.

(** The supervisor after the backend and then the dev server were started. *)
Definition started (w : sim) : state sim :=
  snd (start_frontend_server true (snd (start_websocket_server (manager w)))).

End Sim.

Import UIProcessManager.
Import Sim.

(** ** Vocabulary of the statements *)

(** What one turn of the merge loop stores under a key, given what the base
    held there and what the update brings. *)
Definition merged_value (old : option value) (new : value) : value :=
  match old, new with
  | Some (VDict b), VDict u => VDict (UIConfigManager._deep_merge b u)
  | _, _ => new
  end.

(** A user file that renames the UI title, replaces the host list by a
    shorter one and adds a section. *)
Definition sample_override : dict :=
  [ ("ui", VDict [("title", VStr "Lab")]);
    ("server", VDict [("host", VList [VStr "0.0.0.0"])]);
    ("frontend", VDict [("devPort", VInt 3100)]) ].

(** The command lines of the processes created by the calls [t]. *)
Definition spawned (t : list event) : list (list string) :=
  flat_map (fun e => match e with EvPopen a _ => [cmd a] | _ => [] end) t.

(** The processes created by the calls [t]. *)
Definition created (t : list event) : list proc :=
  flat_map (fun e => match e with EvPopen _ (inr p) => [p] | _ => [] end) t.

(** The call [e] is a sleep, or a poll, signal or wait on one of [ps]. *)
Definition concerns (ps : list proc) (e : event) : Prop :=
  match e with
  | EvSleep _ => True
  | EvPoll p _ | EvTerminate p _ | EvKill p _ | EvWait p _ _ => In p ps
  | _ => False
  end.

(** [l] ends with [tail]. *)
Definition ends_with {A} (l tail : list A) : Prop :=
  exists earlier, l = (earlier ++ tail)%list.

(** [k in d] *)
Definition has_key {V} (k : string) (d : assoc V) : bool :=
  match get k d with Some _ => true | None => false end.

(** A document as [json.load] builds it: in every mapping, at any depth, the
    keys are pairwise distinct. *)
Inductive unique_keys : value -> Prop :=
| unique_none : unique_keys VNone
| unique_bool b : unique_keys (VBool b)
| unique_int z : unique_keys (VInt z)
| unique_str s : unique_keys (VStr s)
| unique_list l : Forall unique_keys l -> unique_keys (VList l)
| unique_dict d :
    NoDup (keys d) ->
    Forall (fun item => unique_keys (snd item)) d ->
    unique_keys (VDict d).

(** [config[section].get(key)] where the section is a mapping. *)
Definition lookup2 (config : dict) (section key : string) : option value :=
  match get section config with
  | Some (VDict d) => get key d
  | _ => None
  end.

(** The section is there and is a mapping. *)
Definition is_section (config : dict) (section : string) : Prop :=
  exists d, get section config = Some (VDict d).

(** [config'] has the top-level keys of [config], in the same order, and
    the same entries outside the sections [agent], [server], [websocket]. *)
Definition same_elsewhere (config config' : dict) : Prop :=
  keys config' = keys config /\
  forall section,
    section <> "agent" -> section <> "server" -> section <> "websocket" ->
    get section config' = get section config.

(** The three sections [update_from_cli] writes to are mappings. *)
Definition sections_ok (config : dict) : Prop :=
  is_section config "agent" /\ is_section config "server" /\
  is_section config "websocket".

(** The [agent] argument is a string, or counts as not given. *)
Definition agent_ok (kwargs : dict) : Prop :=
  truthy (UIConfigManager.kwargs_get kwargs "agent") = false \/
  exists spec, UIConfigManager.kwargs_get kwargs "agent" = VStr spec.

(** The leaves [update_from_cli] assigns for the given arguments. *)
Definition touched (kwargs : dict) (section key : string) : bool :=
  let given name := truthy (UIConfigManager.kwargs_get kwargs name) in
  (String.eqb section "agent" && String.eqb key "module" && given "agent")
  || (String.eqb section "agent" && String.eqb key "rootAgent" && given "agent"
      && match UIConfigManager.kwargs_get kwargs "agent" with
         | VStr spec => let '(_, _, variable) := partition ":" spec in
                        truthy (VStr variable)
         | _ => false
         end)
  || (String.eqb section "server" && String.eqb key "port" && given "port")
  || (String.eqb section "websocket" && String.eqb key "port" && given "ws_port")
  || (String.eqb section "server" && String.eqb key "host" && given "host")
  || (String.eqb section "websocket" && String.eqb key "host" && given "host").

(** The value [update_from_cli] assigns to a leaf it touches. *)
Definition assigned (kwargs : dict) (section key : string) : value :=
  let arg := UIConfigManager.kwargs_get kwargs in
  if String.eqb section "agent" then
    match arg "agent" with
    | VStr spec =>
        let '(module, _, variable) := partition ":" spec in
        if String.eqb key "module" then VStr module else VStr variable
    | _ => VNone
    end
  else if String.eqb key "port" then
    (if String.eqb section "server" then arg "port" else arg "ws_port")
  else
    (if String.eqb section "server" then VList [arg "host"] else arg "host").

(** A computation on a configuration that may share objects with the class
    attribute does what another does on the value of that configuration:
    same result, and a configuration of the value the other leaves. *)
Definition refines {A} (c1 : M UIConfigManager.store A) (c2 : M dict A) : Prop :=
  forall st,
    NoDup (keys (UIConfigManager.self_config st)) ->
    c2 (UIConfigManager.view (UIConfigManager.class_default st)
          (UIConfigManager.self_config st))
    = (fst (c1 st),
       UIConfigManager.view (UIConfigManager.class_default (snd (c1 st)))
         (UIConfigManager.self_config (snd (c1 st)))) /\
    NoDup (keys (UIConfigManager.self_config (snd (c1 st)))).

Section Vocabulary.
Context {W : Type} {rt : Runtime W}.

(** The two start-up failures of the frontend, told apart by their message:
    the port conflict names the dev port, the other points to the log. *)
Definition PortInUseError (port : value) : exn :=
  RuntimeError ("端口 " ++ str_of port ++ " 已被占用").

Definition StartupFailedError : exn :=
  RuntimeError "前端服务器启动失败，请查看 frontend.log 了解详情".

(** The calls of the first pass of [cleanup] over the tracked list: each
    process is polled, and one that still runs is sent the terminate signal,
    whether or not sending raises. *)
Inductive terminate_phase : list proc -> list event -> Prop :=
| terminate_done : terminate_phase [] []
| terminate_skip process rc ps t :
    terminate_phase ps t ->
    terminate_phase (process :: ps) (EvPoll process (Some rc) :: t)
| terminate_sent process raised ps t :
    terminate_phase ps t ->
    terminate_phase (process :: ps)
      (EvPoll process None :: EvTerminate process raised :: t).

(** The calls of the second pass: each process is polled again, and one that
    still runs is sent the kill signal and then waited on for half a unit,
    whether or not the wait raises; a kill that itself raises is not followed
    by a wait. *)
Inductive kill_phase : list proc -> list event -> Prop :=
| kill_done : kill_phase [] []
| kill_skip process rc ps t :
    kill_phase ps t ->
    kill_phase (process :: ps) (EvPoll process (Some rc) :: t)
| kill_sent process raised ps t :
    kill_phase ps t ->
    kill_phase (process :: ps)
      (EvPoll process None :: EvKill process None
         :: EvWait process (Some (1 # 2)) raised :: t)
| kill_failed process e ps t :
    kill_phase ps t ->
    kill_phase (process :: ps)
      (EvPoll process None :: EvKill process (Some e) :: t).

(** The call [e] made in the world [w] got the answer it records and left
    the world [w']. *)
Definition step (w : W) (e : event) (w' : W) : Prop :=
  match e with
  | EvSignal sig d => os_signal w sig d = w'
  | EvOpen file mode => os_open w file mode = w'
  | EvPopen a res => os_popen w a = (w', res)
  | EvRun command dir raised => os_run w command dir = (w', raised)
  | EvSleep seconds => os_sleep w seconds = w'
  | EvPoll process returncode => os_poll w process = (w', returncode)
  | EvTerminate process raised => os_terminate w process = (w', raised)
  | EvKill process raised => os_kill w process = (w', raised)
  | EvWait process timeout raised => os_wait w process timeout = (w', raised)
  | EvRead file res => os_read w file = (w', res)
  | EvEcho msg => os_echo w msg = w'
  end.

(** The calls [t], made one after the other from the world [w], got the
    answers they record and left the world [w']. *)
Fixpoint performed (w : W) (t : list event) (w' : W) : Prop :=
  match t with
  | [] => w' = w
  | e :: rest => exists w1, step w e w1 /\ performed w1 rest w'
  end.

(** The calls a computation adds to the trace are the calls it made: they
    got the answers recorded, and the world it leaves is the one they
    left. *)
Definition faithful {A} (c : M (UIProcessManager.state W) A) : Prop :=
  forall s, exists t,
    UIProcessManager.trace (snd (c s)) = (UIProcessManager.trace s ++ t)%list /\
    performed (UIProcessManager.world s) t (UIProcessManager.world (snd (c s))).

(** The computation leaves the configuration and the template directory of
    the supervisor as they were, whatever it returns. *)
Definition keeps_settings {A} (c : M (UIProcessManager.state W) A) : Prop :=
  forall s,
    UIProcessManager.config (snd (c s)) = UIProcessManager.config s /\
    UIProcessManager.ui_dir (snd (c s)) = UIProcessManager.ui_dir s.

End Vocabulary.

(** * Properties *)

(** ** Mappings *)

Section AssocFacts.
Context {V : Type}.
Implicit Types (d : assoc V) (k : string) (v : V).

Lemma get_set_same k v d : get k (set k v d) = Some v.
Proof.
  induction d as [|[k' v'] d IH]; simpl.
  - now rewrite String.eqb_refl.
  - destruct (String.eqb_spec k k') as [->|Hne]; simpl.
    + now rewrite String.eqb_refl.
    + destruct (String.eqb_spec k k'); [contradiction|exact IH].
Qed.

Lemma get_set_other k k' v d : k <> k' -> get k (set k' v d) = get k d.
Proof.
  intros Hne. induction d as [|[k0 v0] d IH]; simpl.
  - destruct (String.eqb_spec k k'); [contradiction|reflexivity].
  - destruct (String.eqb_spec k' k0) as [->|Hne0]; simpl.
    + destruct (String.eqb_spec k k0); [contradiction|reflexivity].
    + destruct (String.eqb_spec k k0); [reflexivity|exact IH].
Qed.

Lemma get_not_key k d : ~ In k (keys d) -> get k d = None.
Proof.
  induction d as [|[k' v'] d IH]; simpl; intros Hnot; [reflexivity|].
  destruct (String.eqb_spec k k') as [->|Hne].
  - exfalso. apply Hnot. now left.
  - apply IH. intros Hin. apply Hnot. now right.
Qed.

Lemma keys_set k k' v d : In k (keys d) -> In k (keys (set k' v d)).
Proof.
  induction d as [|[k0 v0] d IH]; simpl; intros Hin; [contradiction|].
  destruct (String.eqb_spec k' k0) as [->|Hne]; simpl.
  - exact Hin.
  - destruct Hin as [Heq|Hin]; [now left|right; now apply IH].
Qed.

Lemma set_set_same k v v' d : set k v (set k v' d) = set k v d.
Proof.
  induction d as [|[k0 v0] d IH]; simpl.
  - now rewrite String.eqb_refl.
  - destruct (String.eqb_spec k k0) as [Heq|Hne]; simpl.
    + now rewrite String.eqb_refl.
    + destruct (String.eqb_spec k k0); [contradiction|]. now rewrite IH.
Qed.

End AssocFacts.

(** ** Deep merge *)

Lemma deep_merge_nil base : UIConfigManager._deep_merge base [] = base.
Proof. reflexivity. Qed.

(** One turn of the loop over [update.items()]. *)
Lemma deep_merge_cons base key value rest :
  UIConfigManager._deep_merge base ((key, value) :: rest) =
  UIConfigManager._deep_merge
    match get key base, value with
    | Some (VDict b), VDict u =>
        set key (VDict (UIConfigManager._deep_merge b u)) base
    | _, _ => set key value base
    end rest.
Proof.
  unfold UIConfigManager._deep_merge. simpl.
  destruct (get key base) as [[]|]; destruct value; reflexivity.
Qed.

Lemma deep_merge_cons_set base key value rest :
  UIConfigManager._deep_merge base ((key, value) :: rest) =
  UIConfigManager._deep_merge
    (set key (merged_value (get key base) value) base) rest.
Proof.
  rewrite deep_merge_cons. unfold merged_value.
  destruct (get key base) as [[]|]; destruct value; reflexivity.
Qed.

Lemma deep_merge_untouched update : forall base k,
  get k update = None ->
  get k (UIConfigManager._deep_merge base update) = get k base.
Proof.
  induction update as [|[key value] rest IH]; intros base k Hk.
  - reflexivity.
  - simpl in Hk. destruct (String.eqb_spec k key) as [Heq|Hne]; [discriminate|].
    rewrite deep_merge_cons_set, IH by exact Hk.
    now apply get_set_other.
Qed.

Lemma deep_merge_overridden update : forall base k v,
  NoDup (keys update) ->
  get k update = Some v ->
  get k (UIConfigManager._deep_merge base update)
  = Some (merged_value (get k base) v).
Proof.
  induction update as [|[key value] rest IH]; intros base k v Hnd Hk.
  - discriminate.
  - simpl in Hk. inversion Hnd as [|? ? Hnotin Hnd']; subst.
    rewrite deep_merge_cons_set.
    destruct (String.eqb_spec k key) as [->|Hne].
    + injection Hk as ->.
      rewrite deep_merge_untouched by now apply get_not_key.
      apply get_set_same.
    + rewrite IH with (v := v) by assumption.
      now rewrite get_set_other.
Qed.

Lemma deep_merge_keeps_keys update : forall base k,
  In k (keys base) -> In k (keys (UIConfigManager._deep_merge base update)).
Proof.
  induction update as [|[key value] rest IH]; intros base k Hin.
  - exact Hin.
  - rewrite deep_merge_cons_set. apply IH. now apply keys_set.
Qed.

(** C2.  For a default document [D] and an override document [O] (a mapping,
    so with pairwise distinct keys), the merge keeps every key of [D] that [O]
    lacks with its value, merges recursively where both hold a mapping,
    takes the value of [O] as it is where that value is not a mapping (a
    list included), and has every key that [D] has. *)
Theorem deep_merge_spec (D O : dict) (HO : NoDup (keys O)) :
  (forall k, get k O = None ->
             get k (UIConfigManager._deep_merge D O) = get k D) /\
  (forall k b u, get k D = Some (VDict b) -> get k O = Some (VDict u) ->
                 get k (UIConfigManager._deep_merge D O)
                 = Some (VDict (UIConfigManager._deep_merge b u))) /\
  (forall k v, get k O = Some v -> is_dict v = false ->
               get k (UIConfigManager._deep_merge D O) = Some v) /\
  (forall k, In k (keys D) -> In k (keys (UIConfigManager._deep_merge D O))).
Proof.
  split; [|split; [|split]].
  - intros k Hk. now apply deep_merge_untouched.
  - intros k b u HD HOk.
    rewrite deep_merge_overridden with (v := VDict u) by assumption.
    rewrite HD. reflexivity.
  - intros k v HOk Hv.
    rewrite deep_merge_overridden with (v := v) by assumption.
    destruct v; try discriminate; destruct (get k D) as [[]|]; reflexivity.
  - intros k Hin. now apply deep_merge_keeps_keys.
Qed.

Lemma deep_merge_spec_witness :
  NoDup (keys sample_override) /\
  get "agent" (UIConfigManager._deep_merge UIConfigManager.DEFAULT_CONFIG sample_override)
  = get "agent" UIConfigManager.DEFAULT_CONFIG /\
  get "server" (UIConfigManager._deep_merge UIConfigManager.DEFAULT_CONFIG sample_override)
  = Some (VDict [("port", VInt 50002); ("host", VList [VStr "0.0.0.0"])]) /\
  In "files" (keys (UIConfigManager._deep_merge UIConfigManager.DEFAULT_CONFIG sample_override)).
Proof.
  assert (Hnd : NoDup (keys sample_override))
    by (repeat constructor; simpl; intuition discriminate).
  destruct (@deep_merge_spec UIConfigManager.DEFAULT_CONFIG sample_override Hnd)
    as (Hkeep & Hrec & _ & Hkeys).
  split; [|split; [|split]].
  - exact Hnd.
  - apply Hkeep. reflexivity.
  - rewrite (Hrec "server" _ _ eq_refl eq_refl). reflexivity.
  - apply Hkeys. simpl. tauto.
Defined.

(** The keys the claim speaks of are those of the document itself: where the
    override puts a scalar in place of a section, the section's own keys go
    with it. *)
Example deep_merge_replaces_section :
  UIConfigManager._deep_merge
    [("ui", VDict [("title", VStr "DP Agent Assistant"); ("theme", VStr "light")])]
    [("ui", VStr "none")]
  = [("ui", VStr "none")].
Proof. reflexivity. Qed.

(** ** Command-line overrides *)

Lemma partition_no_sep sep s :
  has_char sep s = false -> partition sep s = (s, "", "").
Proof.
  induction s as [|c s IH]; simpl; intros H; [reflexivity|].
  apply orb_false_iff in H. destruct H as [Hc Hs].
  rewrite Hc, (IH Hs). reflexivity.
Qed.

Lemma partition_first sep m v :
  has_char sep m = false ->
  partition sep (m ++ String sep v) = (m, String sep "", v).
Proof.
  induction m as [|c m IH]; simpl; intros H.
  - now rewrite Ascii.eqb_refl.
  - apply orb_false_iff in H. destruct H as [Hc Hm].
    rewrite Hc, (IH Hm). reflexivity.
Qed.

Lemma nonempty_truthy s : s <> "" -> truthy (VStr s) = true.
Proof.
  intros H. simpl. destruct (String.eqb_spec s ""); [contradiction|reflexivity].
Qed.

(** C7.  On a configuration with an [agent] section, the override
    [agent = m:v] (no colon in [m]) stores [m] as the module and, when [v]
    is not empty, [v] as the root-agent variable; the override [agent = m]
    stores [m] as the module and leaves the root-agent variable as it was;
    the split is at the first colon, so [v] may itself hold colons. *)
Theorem update_from_cli_agent (config a : dict) (m v : string)
  (Hsec : get "agent" config = Some (VDict a))
  (Hm : has_char ":" m = false) :
  partition ":" (m ++ ":" ++ v) = (m, ":", v) /\
  (v <> "" ->
   UIConfigManager.update_from_cli [("agent", VStr (m ++ ":" ++ v))] config
   = (inr tt,
      set "agent" (VDict (set "rootAgent" (VStr v) (set "module" (VStr m) a)))
          config) /\
   get "module" (set "rootAgent" (VStr v) (set "module" (VStr m) a))
   = Some (VStr m) /\
   get "rootAgent" (set "rootAgent" (VStr v) (set "module" (VStr m) a))
   = Some (VStr v)) /\
  (m <> "" ->
   UIConfigManager.update_from_cli [("agent", VStr m)] config
   = (inr tt, set "agent" (VDict (set "module" (VStr m) a)) config) /\
   get "module" (set "module" (VStr m) a) = Some (VStr m) /\
   get "rootAgent" (set "module" (VStr m) a) = get "rootAgent" a).
Proof.
  assert (Hpart : partition ":" (m ++ ":" ++ v) = (m, ":", v))
    by (apply (partition_first ":" m v Hm)).
  split; [exact Hpart|split].
  - intros Hv.
    assert (Hspec : truthy (VStr (m ++ ":" ++ v)) = true).
    { apply nonempty_truthy. destruct m; discriminate. }
    split; [|split].
    + unfold UIConfigManager.update_from_cli, UIConfigManager.kwargs_get,
        get_default, when, bind. cbn [get String.eqb Ascii.eqb Bool.eqb].
      rewrite Hspec, Hpart, (nonempty_truthy Hv).
      unfold UIConfigManager.setitem2, ret. rewrite Hsec.
      rewrite get_set_same, set_set_same. reflexivity.
    + rewrite get_set_other by discriminate. apply get_set_same.
    + apply get_set_same.
  - intros Hne.
    split; [|split].
    + unfold UIConfigManager.update_from_cli, UIConfigManager.kwargs_get,
        get_default, when, bind. cbn [get String.eqb Ascii.eqb Bool.eqb].
      rewrite (nonempty_truthy Hne), (partition_no_sep ":" m Hm).
      unfold UIConfigManager.setitem2, ret. rewrite Hsec.
      reflexivity.
    + apply get_set_same.
    + apply get_set_other. discriminate.
Qed.

Lemma update_from_cli_agent_witness :
  has_char ":" "pkg.mod" = false /\
  snd (UIConfigManager.update_from_cli [("agent", VStr "pkg.mod:myAgent")]
         UIConfigManager.DEFAULT_CONFIG)
  = set "agent"
      (VDict [ ("module", VStr "pkg.mod");
               ("rootAgent", VStr "myAgent");
               ("name", VStr "DP Agent Assistant");
               ("description", VStr "AI Assistant powered by DP Agent SDK");
               ("welcomeMessage", VStr "欢迎使用 DP Agent Assistant！我可以帮助您进行科学计算、数据分析等任务。") ])
      UIConfigManager.DEFAULT_CONFIG /\
  snd (UIConfigManager.update_from_cli [("agent", VStr "pkg.mod")]
         UIConfigManager.DEFAULT_CONFIG)
  = set "agent"
      (VDict [ ("module", VStr "pkg.mod");
               ("rootAgent", VStr "root_agent");
               ("name", VStr "DP Agent Assistant");
               ("description", VStr "AI Assistant powered by DP Agent SDK");
               ("welcomeMessage", VStr "欢迎使用 DP Agent Assistant！我可以帮助您进行科学计算、数据分析等任务。") ])
      UIConfigManager.DEFAULT_CONFIG.
Proof.
  split; [reflexivity|].
  destruct (@update_from_cli_agent UIConfigManager.DEFAULT_CONFIG _
              "pkg.mod" "myAgent" eq_refl eq_refl) as (_ & Hvar & Hplain).
  split.
  - destruct Hvar as (Hrun & _); [discriminate|].
    change ("pkg.mod" ++ ":" ++ "myAgent") with "pkg.mod:myAgent" in Hrun.
    rewrite Hrun. reflexivity.
  - destruct Hplain as (Hrun & _); [discriminate|].
    rewrite Hrun. reflexivity.
Defined.

Example update_from_cli_agent_sample :
  let config' := snd (UIConfigManager.update_from_cli
                        [("agent", VStr "pkg.mod:myAgent:extra")]
                        UIConfigManager.DEFAULT_CONFIG) in
  match get "agent" config' with
  | Some (VDict a) => (get "module" a, get "rootAgent" a)
  | _ => (None, None)
  end = (Some (VStr "pkg.mod"), Some (VStr "myAgent:extra")).
Proof. reflexivity. Qed.

(** C10.  When each of [agent], [port], [ws_port] and [host] is absent or
    false as a truth value ([0], the empty string, [None]), the call
    returns normally and the configuration is what it was. *)
Theorem update_from_cli_falsy (kwargs config : dict)
  (Hagent : truthy (UIConfigManager.kwargs_get kwargs "agent") = false)
  (Hport : truthy (UIConfigManager.kwargs_get kwargs "port") = false)
  (Hws_port : truthy (UIConfigManager.kwargs_get kwargs "ws_port") = false)
  (Hhost : truthy (UIConfigManager.kwargs_get kwargs "host") = false) :
  UIConfigManager.update_from_cli kwargs config = (inr tt, config).
Proof.
  unfold UIConfigManager.update_from_cli.
  rewrite Hagent, Hport, Hws_port, Hhost. reflexivity.
Qed.

Lemma update_from_cli_falsy_witness :
  UIConfigManager.update_from_cli
    [("agent", VStr ""); ("port", VInt 0); ("ws_port", VInt 0); ("host", VStr "")]
    UIConfigManager.DEFAULT_CONFIG
  = (inr tt, UIConfigManager.DEFAULT_CONFIG).
Proof.
  apply update_from_cli_falsy; reflexivity.
Defined.

(** By contrast a port that is not zero is stored. *)
Example update_from_cli_port_sample :
  let config' := snd (UIConfigManager.update_from_cli [("port", VInt 8080)]
                        UIConfigManager.DEFAULT_CONFIG) in
  UIProcessManager.config_get2 config' "server" "port" VNone = inr (VInt 8080).
Proof. reflexivity. Qed.

(** ** More on [partition] and [_deep_merge] *)

(** [partition] gives back the string when its three parts are joined; the
    first part holds no separator; the middle part is the separator when the
    string holds one, and otherwise the middle and last parts are empty. *)
Theorem partition_spec (sep : ascii) (s : string) :
  match partition sep s with
  | (before, found, rest) =>
      s = before ++ found ++ rest /\
      has_char sep before = false /\
      (if has_char sep s then found = String sep ""
       else found = "" /\ rest = "")
  end.
Proof.
  induction s as [|c s IH]; cbn [partition has_char].
  - repeat split.
  - destruct (Ascii.eqb_spec c sep) as [->|Hne]; cbn [orb].
    + repeat split.
    + destruct (partition sep s) as [[before found] rest].
      destruct IH as (Hjoin & Hbefore & Hfound).
      split; [cbn; now rewrite <- Hjoin|].
      split; [|exact Hfound].
      cbn [has_char]. destruct (Ascii.eqb_spec c sep); [contradiction|].
      exact Hbefore.
Qed.

Section MoreAssocFacts.
Context {V : Type}.
Implicit Types (d : assoc V) (k : string) (v : V).

Lemma set_present k v d : get k d = Some v -> set k v d = d.
Proof.
  induction d as [|[k' v'] d IH]; cbn [get set]; [discriminate|].
  destruct (String.eqb_spec k k') as [->|Hne]; intros H.
  - now injection H as ->.
  - now rewrite IH.
Qed.

Lemma set_absent k v d : has_key k d = false -> set k v d = (d ++ [(k, v)])%list.
Proof.
  unfold has_key.
  induction d as [|[k' v'] d IH]; cbn [get set app]; [reflexivity|].
  destruct (String.eqb_spec k k') as [->|Hne]; [discriminate|].
  intros H. now rewrite IH.
Qed.

Lemma keys_set_present k v d : has_key k d = true -> keys (set k v d) = keys d.
Proof.
  unfold has_key, keys.
  induction d as [|[k' v'] d IH]; cbn [get set map fst]; [discriminate|].
  destruct (String.eqb_spec k k') as [->|Hne]; cbn [map fst]; [reflexivity|].
  intros H. now rewrite IH.
Qed.

Lemma has_key_set k k' v d :
  has_key k (set k' v d) = (String.eqb k k' || has_key k d)%bool.
Proof.
  unfold has_key. destruct (String.eqb_spec k k') as [->|Hne]; cbn [orb].
  - now rewrite get_set_same.
  - now rewrite get_set_other.
Qed.

Lemma has_key_app k d d' :
  has_key k (d ++ d')%list = (has_key k d || has_key k d')%bool.
Proof.
  unfold has_key. induction d as [|[k' v'] d IH]; cbn [get app]; [reflexivity|].
  destruct (String.eqb k k'); [reflexivity|exact IH].
Qed.

Lemma has_key_in k d : has_key k d = true <-> In k (keys d).
Proof.
  unfold has_key, keys. induction d as [|[k' v'] d IH]; cbn [get map fst In].
  - split; [discriminate|contradiction].
  - destruct (String.eqb_spec k k') as [->|Hne].
    + split; auto.
    + rewrite IH. split; [auto|]. intros [Heq|Hin]; [congruence|exact Hin].
Qed.

Lemma get_in k v d : NoDup (keys d) -> In (k, v) d -> get k d = Some v.
Proof.
  induction d as [|[k' v'] d IH]; cbn [get In keys map fst]; [contradiction|].
  intros Hnd [Heq|Hin]; inversion Hnd as [|? ? Hnotin Hnd']; subst.
  - injection Heq as -> ->. now rewrite String.eqb_refl.
  - destruct (String.eqb_spec k k') as [->|Hne].
    + exfalso. apply Hnotin. change (In (fst (k', v)) (map fst d)).
      now apply in_map.
    + now apply IH.
Qed.

End MoreAssocFacts.

(** The merged document lists the keys of the base in their order, then the
    keys only the update has, in the update's order. *)
Theorem deep_merge_key_order (D O : dict) (HO : NoDup (keys O)) :
  keys (UIConfigManager._deep_merge D O)
  = (keys D ++ filter (fun k => negb (has_key k D)) (keys O))%list.
Proof.
  revert D. induction O as [|[key value] rest IH]; intros D.
  - cbn. now rewrite app_nil_r.
  - inversion HO as [|? ? Hnotin Hnd]; subst.
    rewrite deep_merge_cons_set, (IH Hnd).
    set (x := merged_value (get key D) value).
    assert (Hfilter :
      filter (fun k => negb (has_key k (set key x D))) (keys rest)
      = filter (fun k => negb (has_key k D)) (keys rest)).
    { apply filter_ext_in. intros k Hin. rewrite has_key_set.
      destruct (String.eqb_spec k key) as [->|Hne]; [contradiction|reflexivity]. }
    rewrite Hfilter. cbn [keys map fst filter].
    destruct (has_key key D) eqn:Hkey; cbn [negb].
    + now rewrite keys_set_present.
    + rewrite set_absent by exact Hkey. unfold keys.
      rewrite map_app, <- app_assoc. reflexivity.
Qed.

(** Where the base has none of the update's keys, the merge is the base
    followed by the update, value for value; so an empty base gives back the
    update. *)
Theorem deep_merge_disjoint (B O : dict)
  (HO : NoDup (keys O))
  (Hnew : forall k, In k (keys O) -> has_key k B = false) :
  UIConfigManager._deep_merge B O = (B ++ O)%list.
Proof.
  revert B Hnew. induction O as [|[key value] rest IH]; intros B Hnew.
  - cbn. now rewrite app_nil_r.
  - inversion HO as [|? ? Hnotin Hnd]; subst.
    assert (Hkey : has_key key B = false) by (apply Hnew; now left).
    rewrite deep_merge_cons_set.
    assert (Hget : get key B = None).
    { unfold has_key in Hkey. destruct (get key B); [discriminate|reflexivity]. }
    rewrite Hget. cbn [merged_value].
    rewrite set_absent by exact Hkey.
    rewrite IH; [now rewrite <- app_assoc|exact Hnd|].
    intros k Hin. rewrite has_key_app, (Hnew k) by now right.
    unfold has_key. cbn [get orb].
    destruct (String.eqb_spec k key) as [->|Hne]; [contradiction|reflexivity].
Qed.

(** Induction on a document through its lists and mappings. *)
Lemma value_nested_ind (P : value -> Prop)
  (Hnone : P VNone) (Hbool : forall b, P (VBool b))
  (Hint : forall z, P (VInt z)) (Hstr : forall s, P (VStr s))
  (Hlist : forall l, Forall P l -> P (VList l))
  (Hdict : forall d, Forall (fun item => P (snd item)) d -> P (VDict d)) :
  forall v, P v.
Proof.
  fix self 1. intros [| b | z | s | l | d].
  - exact Hnone.
  - apply Hbool.
  - apply Hint.
  - apply Hstr.
  - apply Hlist. induction l as [|x l IH]; constructor; [apply self|exact IH].
  - apply Hdict. induction d as [|[k x] d IH]; constructor; [apply self|exact IH].
Qed.

(** A base that already holds, under every key of the update, what the merge
    would store there is left as it is. *)
Lemma deep_merge_absorbed update : forall base,
  (forall k v, In (k, v) update ->
     exists x, get k base = Some x /\ merged_value (Some x) v = x) ->
  UIConfigManager._deep_merge base update = base.
Proof.
  induction update as [|[key value] rest IH]; intros base Habs; [reflexivity|].
  rewrite deep_merge_cons_set.
  destruct (Habs key value) as (x & Hget & Hx); [now left|].
  rewrite Hget, Hx, (set_present _ _ Hget).
  apply IH. intros k v Hin. apply Habs. now right.
Qed.

Lemma deep_merge_self_idem (v : value) :
  unique_keys v ->
  forall d, v = VDict d ->
    UIConfigManager._deep_merge d d = d /\
    forall D, UIConfigManager._deep_merge (UIConfigManager._deep_merge D d) d
              = UIConfigManager._deep_merge D d.
Proof.
  induction v as [| | | | l _ | d0 IH] using value_nested_ind;
    intros Hu d Hd; try discriminate.
  injection Hd as ->. inversion Hu as [| | | | |? Hnd Hall]; subst.
  rewrite Forall_forall in IH, Hall.
  assert (Hself : forall k v, In (k, v) d -> merged_value (Some v) v = v).
  { intros k v Hin. destruct v; try reflexivity. cbn [merged_value].
    destruct (IH _ Hin (Hall _ Hin) _ eq_refl) as [-> _]. reflexivity. }
  split.
  - apply deep_merge_absorbed. intros k v Hin. exists v.
    split; [now apply get_in|now apply (Hself k)].
  - intros D. apply deep_merge_absorbed. intros k v Hin.
    rewrite deep_merge_overridden with (v := v)
      by (try assumption; now apply get_in).
    eexists. split; [reflexivity|].
    destruct v; try (destruct (get k D) as [[]|]; reflexivity).
    destruct (IH _ Hin (Hall _ Hin) _ eq_refl) as [Hdd Hidem].
    destruct (get k D) as [[]|]; cbn [merged_value];
      rewrite ?Hidem, ?Hdd; reflexivity.
Qed.

(** Merging a document into itself changes nothing: a user file that
    repeats what the base already says leaves the base as it is. *)
Theorem deep_merge_self (d : dict) (Hd : unique_keys (VDict d)) :
  UIConfigManager._deep_merge d d = d.
Proof. exact (proj1 (deep_merge_self_idem Hd eq_refl)). Qed.

(** Merging the same update a second time changes nothing. *)
Theorem deep_merge_idempotent (D O : dict) (HO : unique_keys (VDict O)) :
  UIConfigManager._deep_merge (UIConfigManager._deep_merge D O) O
  = UIConfigManager._deep_merge D O.
Proof. exact (proj2 (deep_merge_self_idem HO eq_refl) D). Qed.

(** ** More on [_load_config] and [update_from_cli] *)

(** ** The class attribute: loading and overriding in place *)

Section ClassAttribute.
Import UIConfigManager.

Lemma get_view D c k : get k (view D c) = lookup k (Store D c).
Proof.
  unfold lookup. cbn [self_config class_default].
  induction c as [|[k' x] c IH]; cbn [view map get fst snd]; [reflexivity|].
  destruct (String.eqb_spec k k') as [->|Hne]; [reflexivity|exact IH].
Qed.

Lemma keys_view D c : keys (view D c) = keys c.
Proof. unfold keys, view. rewrite map_map. reflexivity. Qed.

Lemma keys_copy D : keys (copy D) = keys D.
Proof. unfold keys, copy. rewrite map_map. reflexivity. Qed.

Lemma get_copy D k :
  get k (copy D)
  = match get k D with
    | Some v => Some (if is_dict v then Shared else Own v)
    | None => None
    end.
Proof.
  induction D as [|[k' v] D IH]; cbn [copy map get fst snd]; [reflexivity|].
  destruct (String.eqb k k'); [reflexivity|exact IH].
Qed.

Lemma view_copy D : NoDup (keys D) -> view D (copy D) = D.
Proof.
  intros Hnd.
  assert (H : forall D', (forall k v, In (k, v) D' -> get k D = Some v) ->
                         view D (copy D') = D').
  { induction D' as [|[k v] D' IH]; intros Hin; [reflexivity|].
    cbn [copy view map fst snd]. fold (copy D'). fold (view D (copy D')).
    rewrite IH by (intros k' v' H'; apply Hin; now right).
    f_equal. f_equal. unfold deref, get_default.
    destruct (is_dict v); [|reflexivity].
    now rewrite (Hin k v) by now left. }
  apply H. intros k v Hin. now apply get_in.
Qed.

Lemma view_set_own D k v c : view D (set k (Own v) c) = set k v (view D c).
Proof.
  induction c as [|[k' x] c IH]; cbn [set view map fst snd]; [reflexivity|].
  destruct (String.eqb k k'); cbn [view map fst snd]; [reflexivity|].
  fold (view D (set k (Own v) c)). fold (view D c). now rewrite IH.
Qed.

Lemma view_set_elsewhere D k m c :
  ~ In k (keys c) -> view (set k m D) c = view D c.
Proof.
  induction c as [|[k' x] c IH]; cbn [view map fst snd keys In]; [reflexivity|].
  intros Hnot. fold (view (set k m D) c). fold (view D c).
  rewrite IH by tauto. f_equal. f_equal.
  destruct x; [|reflexivity]. unfold deref, get_default.
  rewrite get_set_other; [reflexivity|]. intros ->. tauto.
Qed.

Lemma view_write_shared D k m c :
  NoDup (keys c) -> get k c = Some Shared ->
  view (set k m D) c = set k m (view D c).
Proof.
  induction c as [|[k' x] c IH]; cbn [get keys map fst]; [discriminate|].
  intros Hnd Hget. inversion Hnd as [|? ? Hnotin Hnd']; subst.
  cbn [view map fst snd set]. fold (view (set k m D) c). fold (view D c).
  destruct (String.eqb_spec k k') as [->|Hne].
  - injection Hget as ->. rewrite view_set_elsewhere by exact Hnotin.
    unfold deref, get_default. now rewrite get_set_same.
  - cbn [view map fst snd]. fold (view D c). rewrite <- (IH Hnd' Hget).
    f_equal. f_equal. destruct x; [|reflexivity]. unfold deref, get_default.
    rewrite get_set_other; [reflexivity|]. congruence.
Qed.

Lemma keys_set_inv {V} k k' (v : V) d :
  In k' (keys (set k v d)) -> k' = k \/ In k' (keys d).
Proof.
  induction d as [|[k0 v0] d IH]; cbn [set keys map fst In].
  - intros [<-|[]]. now left.
  - destruct (String.eqb_spec k k0) as [->|Hne]; cbn [map fst In].
    + intros [<-|Hin]; auto.
    + intros [<-|Hin]; [auto|]. destruct (IH Hin); auto.
Qed.

Lemma keys_set_nodup {V} k (v : V) d : NoDup (keys d) -> NoDup (keys (set k v d)).
Proof.
  induction d as [|[k0 v0] d IH]; cbn [set keys map fst]; intros Hnd.
  - repeat constructor. intros [].
  - inversion Hnd as [|? ? Hnotin Hnd']; subst.
    destruct (String.eqb_spec k k0) as [->|Hne]; cbn [map fst].
    + now constructor.
    + constructor; [|now apply IH].
      intros Hin. destruct (@keys_set_inv _ _ _ _ _ Hin); [congruence|contradiction].
Qed.

Lemma view_write D c k m :
  NoDup (keys c) -> has_key k c = true ->
  view (class_default (write k m (Store D c))) (self_config (write k m (Store D c)))
  = set k m (view D c) /\
  NoDup (keys (self_config (write k m (Store D c)))).
Proof.
  intros Hnd Hk. unfold write. cbn [self_config class_default].
  destruct (get k c) as [[|v]|] eqn:Hget; cbn [self_config class_default].
  - split; [now apply view_write_shared|exact Hnd].
  - split; [apply view_set_own|now apply keys_set_nodup].
  - split; [apply view_set_own|now apply keys_set_nodup].
Qed.

Lemma lookup_has_key k st v : lookup k st = Some v -> has_key k (self_config st) = true.
Proof. unfold lookup, has_key. now destruct (get k (self_config st)). Qed.

(** The merge on a base that shares objects is the merge of the values. *)
Lemma deep_merge_in_place_value update : forall st,
  NoDup (keys (self_config st)) ->
  view (class_default (_deep_merge_in_place update st))
       (self_config (_deep_merge_in_place update st))
  = _deep_merge (view (class_default st) (self_config st)) update /\
  NoDup (keys (self_config (_deep_merge_in_place update st))).
Proof.
  induction update as [|[key value] rest IH]; intros [D c] Hnd;
    cbn [class_default self_config] in *; [now split|].
  cbn [_deep_merge_in_place]. rewrite deep_merge_cons_set, get_view.
  assert (Helse :
    view (class_default (_deep_merge_in_place rest (Store D (set key (Own value) c))))
         (self_config (_deep_merge_in_place rest (Store D (set key (Own value) c))))
    = _deep_merge (set key value (view D c)) rest /\
    NoDup (keys (self_config
                   (_deep_merge_in_place rest (Store D (set key (Own value) c)))))).
  { destruct (IH (Store D (set key (Own value) c)) (@keys_set_nodup _ _ _ _ Hnd))
      as [H1 H2].
    cbn [class_default self_config] in H1. rewrite view_set_own in H1.
    now split. }
  destruct (lookup key (Store D c)) as [old|] eqn:Hold;
    [destruct old as [| | | | |b]; destruct value as [| | | | |u]|];
    cbn [merged_value class_default self_config]; try exact Helse.
  destruct (@view_write D c key (VDict (_deep_merge b u)) Hnd
              (@lookup_has_key _ _ _ Hold)) as [Hview Hnd1].
  destruct (IH _ Hnd1) as [-> Hnd']. rewrite Hview. now split.
Qed.

(** What the merge leaves in the class attribute: its keys as they were,
    and under a key another value only where the slot shares the object,
    the object is a mapping and the update brings a mapping. *)
Lemma deep_merge_in_place_default update : forall st,
  NoDup (keys update) ->
  keys (class_default (_deep_merge_in_place update st)) = keys (class_default st) /\
  forall k,
    get k (class_default (_deep_merge_in_place update st))
    = match get k (self_config st), get k (class_default st), get k update with
      | Some Shared, Some (VDict b), Some (VDict u) => Some (VDict (_deep_merge b u))
      | _, _, _ => get k (class_default st)
      end.
Proof.
  induction update as [|[key value] rest IH]; intros [D c] Hnd;
    cbn [class_default self_config].
  - split; [reflexivity|]. intros k.
    cbn [_deep_merge_in_place class_default self_config].
    change (get k (@nil (string * value))) with (@None value).
    destruct (get k c) as [[|]|]; try reflexivity.
    destruct (get k D) as [[]|]; reflexivity.
  - inversion Hnd as [|? ? Hnotin Hnd']; subst.
    cbn [_deep_merge_in_place].
    set (st1 := match lookup key (Store D c) with
                | Some (VDict b) =>
                    match value with
                    | VDict u => write key (VDict (_deep_merge b u)) (Store D c)
                    | _ => Store (class_default (Store D c))
                             (set key (Own value) (self_config (Store D c)))
                    end
                | _ => Store (class_default (Store D c))
                         (set key (Own value) (self_config (Store D c)))
                end).
    assert (Hst1 :
      keys (class_default st1) = keys D /\
      (forall k, k <> key ->
         get k (self_config st1) = get k c /\ get k (class_default st1) = get k D) /\
      get key (class_default st1)
      = match get key c, get key D, value with
        | Some Shared, Some (VDict b), VDict u => Some (VDict (_deep_merge b u))
        | _, _, _ => get key D
        end).
    { subst st1. unfold lookup, write, deref, get_default.
      cbn [class_default self_config].
      destruct (get key c) as [[|own]|] eqn:Hc; cbn [class_default self_config];
        [destruct (get key D) as [[| | | | |b]|] eqn:HD
        |destruct own as [| | | | |b]|];
        cbn [class_default self_config];
        try destruct value; cbn [class_default self_config];
        rewrite ?Hc; cbn [class_default self_config];
        (split;
         [first [reflexivity
                | apply keys_set_present; unfold has_key; now rewrite HD]
         |split;
          [intros k Hk; rewrite ?get_set_other by exact Hk; now split
          |first [reflexivity | assumption | apply get_set_same]]]). }
    fold st1. destruct Hst1 as (Hkeys & Hother & Hkey).
    destruct (IH st1 Hnd') as [IHkeys IHget].
    split; [now rewrite IHkeys|].
    intros k. rewrite IHget. cbn [get].
    destruct (String.eqb_spec k key) as [->|Hne].
    + rewrite (@get_not_key _ key rest Hnotin).
      assert (Hsame :
        match get key (self_config st1) with
        | Some Shared =>
            match get key (class_default st1) with
            | Some (VDict _) => get key (class_default st1)
            | _ => get key (class_default st1)
            end
        | _ => get key (class_default st1)
        end = get key (class_default st1)).
      { destruct (get key (self_config st1)) as [[|]|]; try reflexivity.
        destruct (get key (class_default st1)) as [[]|]; reflexivity. }
      cbn beta iota. rewrite Hsame, Hkey.
      destruct (get key c) as [[|]|]; try reflexivity.
    + destruct (Hother k Hne) as [-> ->]. reflexivity.
Qed.

(** [_load_config] works on the class attribute as it stands, [D]
    (the literal [DEFAULT_CONFIG] only in an interpreter where nothing has
    rewritten it yet).  Without a file the configuration returned has the
    value [D] and [D] stays.  A file that does not hold a mapping raises
    [AttributeError] and [D] stays.  A file holding a mapping [user] gives a
    configuration whose value is the merge of [user] into [D], and rewrites
    the class attribute in place: it keeps its keys, and each section of [D]
    that is a mapping and for which [user] brings a mapping becomes their
    merge, so that a later load starts from the rewritten defaults.  Where
    the entries of [user] for the sections of [D] are mappings, every key of
    every section of [D] is still in the configuration returned. *)
Theorem load_config_spec (D : dict) (HD : NoDup (keys D)) :
  (exists config,
     _load_config None D = (inr config, D) /\ view D config = D) /\
  (forall v, is_dict v = false ->
     _load_config (Some v) D = (inl AttributeError, D)) /\
  (forall user, NoDup (keys user) ->
     exists config D',
       _load_config (Some (VDict user)) D = (inr config, D') /\
       view D' config = _deep_merge D user /\
       keys D' = keys D /\
       (forall k,
          get k D'
          = match get k D, get k user with
            | Some (VDict b), Some (VDict u) => Some (VDict (_deep_merge b u))
            | _, _ => get k D
            end) /\
       ((forall section v, In section (keys D) ->
                           get section user = Some v -> is_dict v = true) ->
        forall section d0 key,
          get section D = Some (VDict d0) -> In key (keys d0) ->
          exists d, get section (view D' config) = Some (VDict d) /\
                    In key (keys d))).
Proof.
  split; [|split].
  - exists (copy D). split; [reflexivity|now apply view_copy].
  - intros v Hv. destruct v; try reflexivity. discriminate.
  - intros user Huser.
    assert (Hcopy : NoDup (keys (self_config (Store D (copy D)))))
      by (cbn [self_config]; now rewrite keys_copy).
    destruct (@deep_merge_in_place_value user (Store D (copy D)) Hcopy)
      as [Hview _].
    destruct (@deep_merge_in_place_default user (Store D (copy D)) Huser)
      as [Hkeys Hget].
    cbn [class_default self_config] in Hview, Hkeys, Hget.
    rewrite (@view_copy D HD) in Hview.
    do 2 eexists. split; [reflexivity|].
    split; [exact Hview|]. split; [exact Hkeys|]. split.
    + intros k. rewrite Hget, get_copy.
      destruct (get k D) as [[]|]; reflexivity.
    + intros Hsections section d0 key Hdefault Hkey. rewrite Hview.
      destruct (get section user) as [v|] eqn:Hu.
      * assert (Hin : In section (keys D)).
        { apply has_key_in. unfold has_key. now rewrite Hdefault. }
        pose proof (Hsections _ _ Hin Hu) as Hdict.
        destruct v; try discriminate.
        rewrite deep_merge_overridden with (v := VDict d) by assumption.
        rewrite Hdefault. cbn [merged_value].
        eexists. split; [reflexivity|]. now apply deep_merge_keeps_keys.
      * rewrite deep_merge_untouched by assumption.
        exists d0. now split.
Qed.

(** *** Overriding in place *)

Lemma update_from_cli_unfolded kwargs :
  update_from_cli kwargs = update_from_cli_with setitem2 kwargs.
Proof. reflexivity. Qed.

Lemma refines_ret {A} (a : A) : refines (ret a) (ret a).
Proof. intros st Hnd. now split. Qed.

Lemma refines_raise {A} (e : exn) : refines (@raise _ A e) (raise e).
Proof. intros st Hnd. now split. Qed.

Lemma refines_bind {A B} (c1 : M store A) (c2 : M dict A)
    (k1 : A -> M store B) (k2 : A -> M dict B) :
  refines c1 c2 -> (forall a, refines (k1 a) (k2 a)) ->
  refines (bind c1 k1) (bind c2 k2).
Proof.
  intros Hc Hk st Hnd. unfold bind.
  destruct (Hc st Hnd) as [-> Hnd1].
  destruct (c1 st) as [[e|a] st1]; cbn [fst snd] in *.
  - now split.
  - exact (Hk a st1 Hnd1).
Qed.

Lemma refines_when (b : bool) (c1 : M store unit) (c2 : M dict unit) :
  refines c1 c2 -> refines (when b c1) (when b c2).
Proof. intros Hc. destruct b; [exact Hc|apply refines_ret]. Qed.

Lemma refines_setitem2 section key v :
  refines (setitem2_in_place section key v) (setitem2 section key v).
Proof.
  intros [D c] Hnd. unfold setitem2_in_place, setitem2.
  cbn [class_default self_config]. rewrite get_view.
  destruct (lookup section (Store D c)) as [old|] eqn:Hold; [|now split].
  destruct old; cbn [fst snd class_default self_config]; try now split.
  destruct (@view_write D c section (VDict (set key v d)) Hnd
              (@lookup_has_key _ _ _ Hold)) as [-> Hnd'].
  now split.
Qed.

(** [update_from_cli] on a configuration that shares objects with the class
    attribute returns what it returns on the value of that configuration,
    and leaves a configuration of the value it leaves there. *)
Lemma update_from_cli_in_place_value kwargs :
  refines (update_from_cli_in_place kwargs) (update_from_cli kwargs).
Proof.
  rewrite update_from_cli_unfolded.
  unfold update_from_cli_in_place, update_from_cli_with.
  repeat first
    [ apply refines_bind; [|intros _]
    | apply refines_when
    | apply refines_setitem2 ].
  destruct (kwargs_get kwargs "agent"); try apply refines_raise.
  destruct (partition ":" s) as [[module found] variable].
  repeat first
    [ apply refines_bind; [|intros _]
    | apply refines_when
    | apply refines_setitem2 ].
Qed.

End ClassAttribute.

Lemma setitem2_effect section key v config :
  is_section config section ->
  exists config',
    UIConfigManager.setitem2 section key v config = (inr tt, config') /\
    (forall s, is_section config s -> is_section config' s) /\
    forall s k,
      lookup2 config' s k
      = if (String.eqb s section && String.eqb k key)%bool then Some v
        else lookup2 config s k.
Proof.
  intros [d Hd]. unfold UIConfigManager.setitem2. rewrite Hd.
  eexists. split; [reflexivity|split].
  - intros s [ds Hs]. unfold is_section.
    destruct (String.eqb_spec s section) as [->|Hne].
    + rewrite get_set_same. eauto.
    + rewrite get_set_other by assumption. eauto.
  - intros s k. unfold lookup2.
    destruct (String.eqb_spec s section) as [->|Hne]; cbn [andb].
    + rewrite get_set_same, Hd.
      destruct (String.eqb_spec k key) as [->|Hk].
      * apply get_set_same.
      * now apply get_set_other.
    + now rewrite get_set_other.
Qed.

(** Run the next assignment of [update_from_cli], keeping what is known of
    the three sections. *)
Ltac assign Ha Hs Hw :=
  match goal with
  | |- context [UIConfigManager.setitem2 ?s0 ?k0 ?v0 ?c] =>
      let c' := fresh "config" in
      let Hrun := fresh "Hrun" in
      let Hsec := fresh "Hsec" in
      let Hlook := fresh "Hlook" in
      destruct (@setitem2_effect s0 k0 v0 c ltac:(assumption))
        as (c' & Hrun & Hsec & Hlook);
      rewrite Hrun; clear Hrun;
      apply Hsec in Ha; apply Hsec in Hs; apply Hsec in Hw; clear Hsec;
      cbn beta iota
  end.

Ltac lookups :=
  repeat match goal with
         | H : forall s k, lookup2 ?c s k = _ |- context [lookup2 ?c _ _] =>
             rewrite H
         end.

(** Decide which leaf [section], [key] name. *)
Ltac which_leaf section key :=
  destruct (String.eqb_spec section "agent") as [->|?];
  [|destruct (String.eqb_spec section "server") as [->|?];
    [|destruct (String.eqb_spec section "websocket") as [->|?]]];
  (destruct (String.eqb_spec key "module") as [->|?];
   [|destruct (String.eqb_spec key "rootAgent") as [->|?];
     [|destruct (String.eqb_spec key "port") as [->|?];
       [|destruct (String.eqb_spec key "host") as [->|?]]]]);
  cbn [String.eqb Ascii.eqb Bool.eqb andb orb];
  try reflexivity.

Lemma update_from_cli_run (kwargs config : dict)
  (Hok : sections_ok config) (Hagent : agent_ok kwargs) :
  fst (UIConfigManager.update_from_cli kwargs config) = inr tt /\
  sections_ok (snd (UIConfigManager.update_from_cli kwargs config)) /\
  forall section key,
    lookup2 (snd (UIConfigManager.update_from_cli kwargs config)) section key
    = if touched kwargs section key then Some (assigned kwargs section key)
      else lookup2 config section key.
Proof.
  destruct Hok as (Ha & Hs & Hw).
  unfold touched, assigned, UIConfigManager.update_from_cli, when, bind, ret.
  destruct (truthy (UIConfigManager.kwargs_get kwargs "agent")) eqn:Fa.
  - destruct Hagent as [Hfalse|[spec Hspec]]; [congruence|].
    rewrite Hspec in *. destruct (partition ":" spec) as [[module found] variable].
    assign Ha Hs Hw.
    destruct (truthy (VStr variable)) eqn:Fv;
      destruct (truthy (UIConfigManager.kwargs_get kwargs "port")) eqn:Fp;
      destruct (truthy (UIConfigManager.kwargs_get kwargs "ws_port")) eqn:Fw;
      destruct (truthy (UIConfigManager.kwargs_get kwargs "host")) eqn:Fh;
      repeat assign Ha Hs Hw;
      (split; [reflexivity|split; [now repeat split|]]);
      intros section key; cbn [fst snd]; lookups;
      which_leaf section key.
  - destruct (truthy (UIConfigManager.kwargs_get kwargs "port")) eqn:Fp;
      destruct (truthy (UIConfigManager.kwargs_get kwargs "ws_port")) eqn:Fw;
      destruct (truthy (UIConfigManager.kwargs_get kwargs "host")) eqn:Fh;
      repeat assign Ha Hs Hw;
      (split; [reflexivity|split; [now repeat split|]]);
      intros section key; cbn [fst snd]; lookups;
      which_leaf section key.
Qed.

(** On a configuration whose [agent], [server] and [websocket] sections are
    mappings, with an [agent] argument that is a string when given,
    [update_from_cli] returns normally, the three sections are still
    mappings, and each leaf holds the value assigned from the arguments if
    the arguments touch it and its former value otherwise. *)
Theorem update_from_cli_effect (kwargs config : dict)
  (Hok : sections_ok config) (Hagent : agent_ok kwargs) :
  fst (UIConfigManager.update_from_cli kwargs config) = inr tt /\
  sections_ok (snd (UIConfigManager.update_from_cli kwargs config)) /\
  forall section key,
    lookup2 (snd (UIConfigManager.update_from_cli kwargs config)) section key
    = if touched kwargs section key then Some (assigned kwargs section key)
      else lookup2 config section key.
Proof. exact (update_from_cli_run Hok Hagent). Qed.

Lemma setitem2_absorbed section key v config :
  lookup2 config section key = Some v ->
  UIConfigManager.setitem2 section key v config = (inr tt, config).
Proof.
  unfold lookup2, UIConfigManager.setitem2.
  destruct (get section config) as [[]|] eqn:Hsec; try discriminate.
  intros Hkey. rewrite (set_present _ _ Hkey), (set_present _ _ Hsec).
  reflexivity.
Qed.

Lemma update_from_cli_absorbed (kwargs config : dict)
  (Hagent : agent_ok kwargs)
  (Hall : forall section key,
      touched kwargs section key = true ->
      lookup2 config section key = Some (assigned kwargs section key)) :
  UIConfigManager.update_from_cli kwargs config = (inr tt, config).
Proof.
  unfold UIConfigManager.update_from_cli, when, bind, ret.
  assert (Hmodule := Hall "agent" "module").
  assert (Hroot := Hall "agent" "rootAgent").
  assert (Hport := Hall "server" "port").
  assert (Hws := Hall "websocket" "port").
  assert (Hhost := Hall "server" "host").
  assert (Hwhost := Hall "websocket" "host").
  unfold touched, assigned in Hmodule, Hroot, Hport, Hws, Hhost, Hwhost.
  cbn [String.eqb Ascii.eqb Bool.eqb andb orb] in *.
  destruct (truthy (UIConfigManager.kwargs_get kwargs "agent")) eqn:Fa.
  - destruct Hagent as [Hfalse|[spec Hspec]]; [congruence|].
    rewrite Hspec in *. destruct (partition ":" spec) as [[module found] variable].
    rewrite (setitem2_absorbed _ _ _ (Hmodule eq_refl)).
    destruct (truthy (VStr variable)) eqn:Fv;
      destruct (truthy (UIConfigManager.kwargs_get kwargs "port")) eqn:Fp;
      destruct (truthy (UIConfigManager.kwargs_get kwargs "ws_port")) eqn:Fw;
      destruct (truthy (UIConfigManager.kwargs_get kwargs "host")) eqn:Fh;
      cbn [andb orb] in *;
      rewrite ?(setitem2_absorbed _ _ _ (Hroot eq_refl)),
              ?(setitem2_absorbed _ _ _ (Hport eq_refl)),
              ?(setitem2_absorbed _ _ _ (Hws eq_refl)),
              ?(setitem2_absorbed _ _ _ (Hhost eq_refl)),
              ?(setitem2_absorbed _ _ _ (Hwhost eq_refl));
      reflexivity.
  - destruct (truthy (UIConfigManager.kwargs_get kwargs "port")) eqn:Fp;
      destruct (truthy (UIConfigManager.kwargs_get kwargs "ws_port")) eqn:Fw;
      destruct (truthy (UIConfigManager.kwargs_get kwargs "host")) eqn:Fh;
      cbn [andb orb] in *;
      rewrite ?(setitem2_absorbed _ _ _ (Hport eq_refl)),
              ?(setitem2_absorbed _ _ _ (Hws eq_refl)),
              ?(setitem2_absorbed _ _ _ (Hhost eq_refl)),
              ?(setitem2_absorbed _ _ _ (Hwhost eq_refl));
      reflexivity.
Qed.

(** Under the same conditions, applying the same arguments a second time
    returns normally and changes nothing. *)
Theorem update_from_cli_idempotent (kwargs config : dict)
  (Hok : sections_ok config) (Hagent : agent_ok kwargs) :
  UIConfigManager.update_from_cli kwargs
    (snd (UIConfigManager.update_from_cli kwargs config))
  = (inr tt, snd (UIConfigManager.update_from_cli kwargs config)).
Proof.
  destruct (update_from_cli_run Hok Hagent) as (_ & _ & Hlook).
  apply update_from_cli_absorbed; [exact Hagent|].
  intros section key Htouched. now rewrite Hlook, Htouched.
Qed.

Lemma setitem2_elsewhere section key v config :
  List.In section ["agent"; "server"; "websocket"] ->
  same_elsewhere config (snd (UIConfigManager.setitem2 section key v config)).
Proof.
  intros Hin. unfold UIConfigManager.setitem2, same_elsewhere.
  destruct (get section config) as [x|] eqn:Hsec; [|now split].
  destruct x; cbn [snd]; try now split.
  split.
  - apply keys_set_present. unfold has_key. now rewrite Hsec.
  - intros s Ha Hs Hw. apply get_set_other.
    cbn [List.In] in Hin. intuition congruence.
Qed.

Lemma same_elsewhere_trans c1 c2 c3 :
  same_elsewhere c1 c2 -> same_elsewhere c2 c3 -> same_elsewhere c1 c3.
Proof.
  intros [Hk1 Hg1] [Hk2 Hg2]. split.
  - now rewrite Hk2.
  - intros s Ha Hs Hw. now rewrite Hg2, Hg1.
Qed.

Lemma same_elsewhere_refl c : same_elsewhere c c.
Proof. now split. Qed.

Lemma bind_elsewhere {A} (c : M dict A) (k : A -> M dict unit) :
  (forall config, same_elsewhere config (snd (c config))) ->
  (forall a config, same_elsewhere config (snd (k a config))) ->
  forall config, same_elsewhere config (snd (bind c k config)).
Proof.
  intros Hc Hk config. unfold bind.
  pose proof (Hc config) as H1. destruct (c config) as [[e|a] config1]; cbn [snd] in *.
  - exact H1.
  - eapply same_elsewhere_trans; [exact H1|apply Hk].
Qed.

Lemma when_elsewhere (b : bool) (body : M dict unit) :
  (forall config, same_elsewhere config (snd (body config))) ->
  forall config, same_elsewhere config (snd (when b body config)).
Proof.
  intros Hbody config. destruct b; cbn; [apply Hbody|apply same_elsewhere_refl].
Qed.

(** Whatever the arguments and whether or not it raises, [update_from_cli]
    leaves the top-level keys and their order as they were and does not
    touch any section other than [agent], [server] and [websocket]. *)
Theorem update_from_cli_frame (kwargs config : dict) :
  keys (snd (UIConfigManager.update_from_cli kwargs config)) = keys config /\
  forall section,
    section <> "agent" -> section <> "server" -> section <> "websocket" ->
    get section (snd (UIConfigManager.update_from_cli kwargs config))
    = get section config.
Proof.
  change (same_elsewhere config
            (snd (UIConfigManager.update_from_cli kwargs config))).
  revert config. unfold UIConfigManager.update_from_cli.
  repeat first
    [ apply bind_elsewhere; [|intros _]
    | apply when_elsewhere
    | (intros config; apply setitem2_elsewhere; cbn; tauto) ].
  destruct (UIConfigManager.kwargs_get kwargs "agent");
    try (intros config; apply same_elsewhere_refl).
  destruct (partition ":" s) as [[module found] variable].
  repeat first
    [ apply bind_elsewhere; [|intros _]
    | apply when_elsewhere
    | (intros config; apply setitem2_elsewhere; cbn; tauto) ].
Qed.

(** How [update_from_cli] fails.  A given [agent] that is not a string
    raises [AttributeError] before anything is written.  A string [agent] on
    a configuration without an [agent] section raises [KeyError], and on one
    whose [agent] entry is not a mapping [TypeError], again with nothing
    written.  A [host] alone, on a configuration with a [server] section but
    no [websocket] section, raises [KeyError] after the server host was
    replaced: the write that came first stays. *)
Theorem update_from_cli_errors (kwargs config : dict) :
  (truthy (UIConfigManager.kwargs_get kwargs "agent") = true ->
   (forall spec, UIConfigManager.kwargs_get kwargs "agent" <> VStr spec) ->
   UIConfigManager.update_from_cli kwargs config = (inl AttributeError, config)) /\
  (forall spec,
     UIConfigManager.kwargs_get kwargs "agent" = VStr spec -> spec <> "" ->
     (get "agent" config = None ->
      UIConfigManager.update_from_cli kwargs config
      = (inl (KeyError "agent"), config)) /\
     (forall x, get "agent" config = Some x -> is_dict x = false ->
      UIConfigManager.update_from_cli kwargs config = (inl TypeError, config))) /\
  (truthy (UIConfigManager.kwargs_get kwargs "agent") = false ->
   truthy (UIConfigManager.kwargs_get kwargs "port") = false ->
   truthy (UIConfigManager.kwargs_get kwargs "ws_port") = false ->
   truthy (UIConfigManager.kwargs_get kwargs "host") = true ->
   forall server,
     get "server" config = Some (VDict server) ->
     get "websocket" config = None ->
     UIConfigManager.update_from_cli kwargs config
     = (inl (KeyError "websocket"),
        set "server"
          (VDict (set "host" (VList [UIConfigManager.kwargs_get kwargs "host"])
                    server))
          config)).
Proof.
  unfold UIConfigManager.update_from_cli, when, bind, ret, raise.
  split; [|split].
  - intros Ht Hnot. rewrite Ht.
    destruct (UIConfigManager.kwargs_get kwargs "agent"); try reflexivity.
    now destruct (Hnot s).
  - intros spec Hspec Hne. rewrite Hspec, (nonempty_truthy Hne).
    destruct (partition ":" spec) as [[module found] variable].
    unfold UIConfigManager.setitem2. split.
    + intros ->. reflexivity.
    + intros x -> Hx. destruct x; try reflexivity. discriminate.
  - intros -> -> -> -> server Hserver Hws.
    unfold UIConfigManager.setitem2. rewrite Hserver.
    rewrite get_set_other by discriminate. rewrite Hws. reflexivity.
Qed.

(** ** The substring test *)

Lemma prefix_spec (a b : string) :
  String.prefix a b = true <-> exists rest, b = a ++ rest.
Proof.
  revert b. induction a as [|c a IH]; intros b.
  - destruct b; cbn; split; eauto.
  - destruct b as [|c' b]; cbn [String.prefix].
    + split; [discriminate|intros [rest H]; discriminate H].
    + destruct (ascii_dec c c') as [->|Hne].
      * rewrite IH. split; intros [rest H]; exists rest.
        -- cbn. now rewrite H.
        -- cbn in H. now injection H.
      * split; [discriminate|]. intros [rest H]. cbn in H. congruence.
Qed.

(** The test [needle in hay], as made on the frontend log, holds exactly when
    the text has the needle somewhere in it. *)
Theorem contains_spec (needle hay : string) :
  contains needle hay = true <->
  exists before rest, hay = before ++ needle ++ rest.
Proof.
  induction hay as [|c hay IH]; cbn [contains].
  - rewrite orb_false_r, prefix_spec. split.
    + intros [rest H]. now exists "", rest.
    + intros (before & rest & H). destruct before; [now exists rest|discriminate H].
  - rewrite orb_true_iff, prefix_spec, IH. split.
    + intros [[rest H]|(before & rest & H)].
      * now exists "", rest.
      * exists (String c before), rest. cbn. now rewrite H.
    + intros (before & rest & H). destruct before as [|c' before].
      * left. now exists rest.
      * right. cbn in H. injection H as _ H. now exists before, rest.
Qed.

(** ** Process supervision *)

Section Supervision.
Context {W : Type} {rt : Runtime W}.
Implicit Types (s : state W) (process : proc).

Lemma skipn_length_app {A} (l1 l2 : list A) :
  skipn (length l1) (l1 ++ l2)%list = l2.
Proof. induction l1; simpl; auto. Qed.

Lemma emitted_app s s' l :
  trace s' = (trace s ++ l)%list -> emitted s s' = l.
Proof. unfold emitted. intros ->. apply skipn_length_app. Qed.

Lemma emitted_nil s s' : trace s' = trace s -> emitted s s' = [].
Proof. intros H. apply emitted_app. now rewrite app_nil_r. Qed.

(** Unfold the primitives down to the calls on the world. *)
Ltac unfold_calls :=
  unfold Popen, run_check, sleep, poll, terminate, kill, wait, read, echo,
    open, signal, call_raising, call_, call, query, lift, gets, modify, when,
    try_pass, bind, ret, raise, with_processes in *.

(** Follow every branch of a computation, naming what each call answers. *)
Ltac branches :=
  repeat first
    [ progress cbn [fst snd ui_dir config processes world trace negb andb]
    | match goal with
      | |- context [os_exists ?w ?file] => destruct (os_exists w file) eqn:?
      | |- context [match ?x with _ => _ end] =>
          lazymatch x with
          | context [match _ with _ => _ end] => fail
          | _ => destruct x eqn:?
          end
      end ].

(** Bring the trace of the final state to the form [trace s ++ new] and
    read off [new]. *)
Ltac read_trace :=
  cbn [fst snd ui_dir config processes world trace] in *;
  repeat rewrite <- app_assoc; cbn [app];
  first [ rewrite emitted_nil by reflexivity
        | erewrite emitted_app by reflexivity ].

(** C1 (as the code has it).  When the liveness poll of
    [start_websocket_server] finds the child exited, the call raises the
    start-up failure and the tracked list is the list before the call followed
    by the failed process: the process is appended when it is created, before
    the poll, and nothing takes it out again. *)
Theorem start_websocket_server_exit s process rc :
  In (EvPoll process (Some rc)) (emitted s (snd (start_websocket_server s))) ->
  fst (start_websocket_server s) = inl (RuntimeError "WebSocket 服务器启动失败") /\
  processes (snd (start_websocket_server s)) = (processes s ++ [process])%list.
Proof.
  unfold start_websocket_server. unfold_calls.
  branches; read_trace; cbn [In]; intros H;
    repeat match type of H with _ \/ _ => destruct H as [H|H] end;
    try discriminate H; try contradiction;
    injection H as <- _; split; reflexivity.
Qed.

(** Settle a goal whose hypothesis [H] says an event is among those listed. *)
Ltac among H :=
  cbn [In] in H;
  repeat match type of H with _ \/ _ => destruct H as [H|H] end;
  try discriminate H; try contradiction.

(** C3 (as the code has it).  Whenever [start_frontend_server] creates a
    process, the command is the dev-server command, whatever [dev_mode] is;
    with [dev_mode] false a process is created only when the prebuilt assets
    are missing, where the code switches to dev mode. *)
Theorem start_frontend_server_command (dev_mode : bool) s a res :
  In (EvPopen a res) (emitted s (snd (start_frontend_server dev_mode s))) ->
  cmd a = ["npm"; "run"; "dev"] /\
  (dev_mode = false ->
   os_exists (world s) (ui_dir s // "frontend" // "ui-static") = false).
Proof.
  unfold start_frontend_server. unfold_calls.
  destruct dev_mode; branches; read_trace; intros H; among H;
    injection H as <- _; split; solve [reflexivity | discriminate | auto].
Qed.

Lemma ends_with_refl {A} (l : list A) : ends_with l l.
Proof. now exists []. Qed.

Lemma ends_with_cons {A} (x : A) l tail :
  ends_with l tail -> ends_with (x :: l) tail.
Proof. intros [earlier ->]. now exists (x :: earlier). Qed.

Lemma port_in_use_is_not_generic port :
  PortInUseError port <> StartupFailedError.
Proof. unfold PortInUseError, StartupFailedError. cbn. congruence. Qed.

Lemma split_here {A} (t : list A) : t = ([] ++ t)%list.
Proof. reflexivity. Qed.

Lemma split_later {A} (x : A) l earlier t :
  l = (earlier ++ t)%list -> x :: l = ((x :: earlier) ++ t)%list.
Proof. intros ->. reflexivity. Qed.

(** Check that the calls listed were made from the world at hand, each
    answer being the one found when the branches were followed. *)
Ltac replay :=
  repeat first
    [ progress cbn [performed step]
    | reflexivity
    | eassumption
    | eexists; split; [first [reflexivity | eassumption]|] ].

(** C4.  When the liveness poll of [start_frontend_server] finds the child
    exited and the log can be read back as text, the call ends with these
    calls: the log, [frontend.log] in the working directory, is opened for
    appending and given to the new process as its output, the process is
    polled after a sleep of 3 units and found exited, and the same file is
    opened and read.  The call then raises the port conflict, naming the
    configured dev port, if the text read contains [EADDRINUSE], and the
    generic start-up failure pointing to the log otherwise; the two errors
    are different.  The calls are those made on the world, with the answers
    it gave. *)
Theorem start_frontend_server_exit (dev_mode : bool) s process rc file error_log :
  In (EvPoll process (Some rc))
     (emitted s (snd (start_frontend_server dev_mode s))) ->
  In (EvRead file (inr error_log))
     (emitted s (snd (start_frontend_server dev_mode s))) ->
  exists port a earlier w,
    config_get2 (config s) "frontend" "devPort" (VInt 3000) = inr port /\
    emitted s (snd (start_frontend_server dev_mode s))
    = (earlier ++ [EvOpen file "a"; EvPopen a (inr process); EvSleep (3 # 1);
                   EvPoll process (Some rc);
                   EvOpen file "r"; EvRead file (inr error_log)])%list /\
    performed (world s) earlier w /\
    file = os_cwd w // "frontend.log" /\
    stdout a = file /\
    performed (world s) (emitted s (snd (start_frontend_server dev_mode s)))
      (world (snd (start_frontend_server dev_mode s))) /\
    fst (start_frontend_server dev_mode s)
    = inl (if contains "EADDRINUSE" error_log
           then PortInUseError port else StartupFailedError) /\
    PortInUseError port <> StartupFailedError.
Proof.
  unfold start_frontend_server. unfold_calls.
  destruct dev_mode; branches; read_trace; intros H Hread; among H; among Hread;
    injection H as <- <-; injection Hread as <- <-; try congruence.
  all: match goal with
    | Hport : config_get2 _ "frontend" _ _ = inr ?port |- _ =>
        exists port; do 3 eexists;
        split; [reflexivity|];
        split; [repeat first [apply split_here | eapply split_later]|];
        split; [replay|];
        split; [reflexivity|];
        split; [reflexivity|];
        split; [replay|];
        split; [reflexivity|apply port_in_use_is_not_generic]
    end.
Qed.

(** When the log cannot be read back as text, the exception of the read is
    what the call raises. *)
Lemma start_frontend_server_unreadable_log (dev_mode : bool) s file e :
  In (EvRead file (inl e))
     (emitted s (snd (start_frontend_server dev_mode s))) ->
  fst (start_frontend_server dev_mode s) = inl e.
Proof.
  unfold start_frontend_server. unfold_calls.
  destruct dev_mode; branches; read_trace; intros H; among H;
    injection H as _ <-; reflexivity.
Qed.

(** C8.  With the frontend directory and its prebuilt assets present and
    [dev_mode] false, [start_frontend_server] returns [None], makes no call
    but the two messages, and leaves the tracked list as it was. *)
Theorem start_frontend_server_static s port
  (Hport : config_get2 (config s) "server" "port" (VInt 8000) = inr port)
  (Hui : os_exists (world s) (ui_dir s // "frontend") = true)
  (Hdist : os_exists (world s) (ui_dir s // "frontend" // "ui-static") = true) :
  fst (start_frontend_server false s) = inr None /\
  processes (snd (start_frontend_server false s)) = processes s /\
  emitted s (snd (start_frontend_server false s))
  = [EvEcho ("✨ Agent UI 已启动: http://localhost:" ++ str_of port);
     EvEcho "📁 使用静态文件模式"].
Proof.
  unfold start_frontend_server. unfold_calls.
  rewrite Hport. cbn [fst snd ui_dir config processes world trace].
  rewrite Hui. cbn [negb fst snd ui_dir config processes world trace].
  rewrite Hdist. cbn [negb andb fst snd ui_dir config processes world trace].
  split; [reflexivity|split; [reflexivity|]].
  read_trace. reflexivity.
Qed.

Lemma start_websocket_server_appends s process s' :
  start_websocket_server s = (inr process, s') ->
  processes s' = (processes s ++ [process])%list.
Proof.
  unfold start_websocket_server. unfold_calls.
  branches; intros H; try discriminate H; injection H as <- <-; reflexivity.
Qed.

Lemma start_frontend_server_appends (dev_mode : bool) s process s' :
  start_frontend_server dev_mode s = (inr (Some process), s') ->
  processes s' = (processes s ++ [process])%list.
Proof.
  unfold start_frontend_server. unfold_calls.
  destruct dev_mode; branches; intros H; try discriminate H;
    injection H as <- <-; reflexivity.
Qed.

(** C9.  On a supervisor that tracks nothing yet, a backend start that
    returns [backend] followed by a frontend start that returns a process
    [frontend] leaves the tracked list [[backend; frontend]]: the backend is
    its first element. *)
Theorem startup_order (dev_mode : bool) s s1 s2 backend frontend
  (Hfresh : processes s = [])
  (Hbackend : start_websocket_server s = (inr backend, s1))
  (Hfrontend : start_frontend_server dev_mode s1 = (inr (Some frontend), s2)) :
  processes s2 = [backend; frontend] /\
  hd_error (processes s2) = Some backend.
Proof.
  apply start_websocket_server_appends in Hbackend.
  apply start_frontend_server_appends in Hfrontend.
  rewrite Hfrontend, Hbackend, Hfresh. split; reflexivity.
Qed.

(** *** Cleanup *)

Lemma bind_ok {S A B} (c : M S A) (k : A -> M S B) st a st' :
  c st = (inr a, st') -> bind c k st = k a st'.
Proof. unfold bind. intros ->. reflexivity. Qed.

(** A loop whose body always returns normally, only adds calls and leaves
    the tracked list alone does the same as a whole, and its calls follow
    the list. *)
Lemma for_each_phase (phase : list proc -> list event -> Prop)
    (body : proc -> M (state W) unit)
    (Hdone : phase [] [])
    (Hstep : forall process s, exists t s',
        body process s = (inr tt, s') /\
        trace s' = (trace s ++ t)%list /\
        processes s' = processes s /\
        forall ps t', phase ps t' -> phase (process :: ps) (t ++ t')%list) :
  forall ps s, exists t s',
    for_each ps body s = (inr tt, s') /\
    trace s' = (trace s ++ t)%list /\
    processes s' = processes s /\
    phase ps t.
Proof.
  induction ps as [|process ps IH]; intros s.
  - exists [], s. cbn. rewrite app_nil_r. auto.
  - destruct (Hstep process s) as (t & s1 & Hrun & Htrace & Hprocs & Hphase).
    destruct (IH s1) as (t' & s2 & Hrun' & Htrace' & Hprocs' & Hphase').
    exists (t ++ t')%list, s2. cbn [for_each].
    rewrite (@bind_ok _ _ _ _ _ _ _ _ Hrun), Hrun', Htrace', Htrace, Hprocs', Hprocs.
    rewrite app_assoc. auto.
Qed.

Lemma terminate_step process s : exists t s',
  (returncode <- poll process ;;
   match returncode with
   | None => try_pass (terminate process)
   | Some _ => ret tt
   end) s = (inr tt, s') /\
  trace s' = (trace s ++ t)%list /\
  processes s' = processes s /\
  forall ps t', terminate_phase ps t' ->
                terminate_phase (process :: ps) (t ++ t')%list.
Proof.
  unfold_calls. branches;
    (do 2 eexists; split; [reflexivity|];
     cbn [fst snd ui_dir config processes world trace];
     repeat rewrite <- app_assoc; cbn [app];
     split; [reflexivity|split; [reflexivity|]];
     intros ps t' Hphase; cbn [app]; now constructor).
Qed.

Lemma kill_step process s : exists t s',
  (returncode <- poll process ;;
   match returncode with
   | None => try_pass (kill process ;; wait process (Some (1 # 2)))
   | Some _ => ret tt
   end) s = (inr tt, s') /\
  trace s' = (trace s ++ t)%list /\
  processes s' = processes s /\
  forall ps t', kill_phase ps t' -> kill_phase (process :: ps) (t ++ t')%list.
Proof.
  unfold_calls. branches;
    (do 2 eexists; split; [reflexivity|];
     cbn [fst snd ui_dir config processes world trace];
     repeat rewrite <- app_assoc; cbn [app];
     split; [reflexivity|split; [reflexivity|]];
     intros ps t' Hphase; cbn [app]; now constructor).
Qed.

Lemma cleanup_empty s : processes s = [] -> cleanup s = (inr tt, s).
Proof.
  intros Hempty. unfold cleanup.
  rewrite (@bind_ok _ _ _ (gets processes) _ s (processes s) s) by reflexivity.
  rewrite Hempty. reflexivity.
Qed.

Lemma cleanup_run s process ps :
  processes s = process :: ps ->
  exists t1 t2 s',
    cleanup s = (inr tt, s') /\
    processes s' = [] /\
    trace s' = (trace s ++ t1 ++ [EvSleep (1 # 2)] ++ t2)%list /\
    terminate_phase (process :: ps) t1 /\
    kill_phase (process :: ps) t2.
Proof.
  intros Htracked. unfold cleanup.
  rewrite (@bind_ok _ _ _ (gets processes) _ s (processes s) s) by reflexivity.
  rewrite Htracked.
  destruct (@for_each_phase terminate_phase
              (fun process =>
                 returncode <- poll process ;;
                 match returncode with
                 | None => try_pass (terminate process)
                 | Some _ => ret tt
                 end)
              terminate_done terminate_step (process :: ps) s)
    as (t1 & s1 & Hrun1 & Htrace1 & _ & Hphase1).
  rewrite (@bind_ok _ _ _ _ _ _ _ _ Hrun1).
  erewrite bind_ok by reflexivity.
  match goal with
  | |- context [bind (for_each _ _) _ ?st] =>
      destruct (@for_each_phase kill_phase
                  (fun process =>
                     returncode <- poll process ;;
                     match returncode with
                     | None =>
                         try_pass (kill process ;; wait process (Some (1 # 2)))
                     | Some _ => ret tt
                     end)
                  kill_done kill_step (process :: ps) st)
        as (t2 & s2 & Hrun2 & Htrace2 & _ & Hphase2)
  end.
  rewrite (@bind_ok _ _ _ _ _ _ _ _ Hrun2).
  exists t1, t2. eexists. split; [reflexivity|].
  unfold with_processes.
  cbn [fst snd ui_dir config processes world trace] in *.
  rewrite Htrace2, Htrace1. repeat rewrite <- app_assoc.
  auto.
Qed.

(** *** The calls recorded are the calls made *)

Lemma performed_app w t1 w1 t2 w2 :
  performed w t1 w1 -> performed w1 t2 w2 -> performed w (t1 ++ t2)%list w2.
Proof.
  revert w. induction t1 as [|e t1 IH]; intros w; cbn [performed app].
  - now intros ->.
  - intros (w' & Hstep & Hrest) H2. exists w'. split; [exact Hstep|].
    now apply IH.
Qed.

Lemma faithful_ret {A} (a : A) : @faithful W rt A (ret a).
Proof. intros s. exists []. cbn. now rewrite app_nil_r. Qed.

Lemma faithful_raise {A} (e : exn) : @faithful W rt A (raise e).
Proof. intros s. exists []. cbn. now rewrite app_nil_r. Qed.

Lemma faithful_gets {A} (f : state W -> A) : @faithful W rt _ (gets f).
Proof. intros s. exists []. cbn. now rewrite app_nil_r. Qed.

Lemma faithful_modify (f : list proc -> list proc) :
  @faithful W rt _ (modify (with_processes f)).
Proof. intros s. exists []. cbn. now rewrite app_nil_r. Qed.

Lemma faithful_call {A} (f : W -> W * A) (ev : A -> event) :
  (forall w, step w (ev (snd (f w))) (fst (f w))) ->
  @faithful W rt _ (call f ev).
Proof.
  intros Hstep s. unfold call. pose proof (Hstep (world s)) as H.
  destruct (f (world s)) as [w a]. exists [ev a]. cbn [snd fst trace world] in *.
  split; [reflexivity|]. exists w. now split.
Qed.

Lemma faithful_bind {A B} (c : M (state W) A) (k : A -> M (state W) B) :
  @faithful W rt _ c -> (forall a, @faithful W rt _ (k a)) ->
  @faithful W rt _ (bind c k).
Proof.
  intros Hc Hk s. unfold bind.
  destruct (Hc s) as (t & Htrace & Hdone).
  destruct (c s) as [[e|a] s1]; cbn [snd] in *.
  - now exists t.
  - destruct (Hk a s1) as (t' & Htrace' & Hdone').
    exists (t ++ t')%list. split.
    + now rewrite Htrace', Htrace, app_assoc.
    + eapply performed_app; eassumption.
Qed.

Lemma faithful_try_pass (body : M (state W) unit) :
  @faithful W rt _ body -> @faithful W rt _ (try_pass body).
Proof. intros Hbody s. exact (Hbody s). Qed.

Lemma faithful_for_each {A} (xs : list A) (body : A -> M (state W) unit) :
  (forall x, @faithful W rt _ (body x)) -> @faithful W rt _ (for_each xs body).
Proof.
  intros Hbody. induction xs as [|x xs IH]; cbn [for_each].
  - apply faithful_ret.
  - apply faithful_bind; [apply Hbody|intros _; exact IH].
Qed.

(** Break a computation into its calls and check each one against the
    world. *)
Ltac faithful :=
  unfold Popen, run_check, sleep, poll, terminate, kill, wait, read, echo,
    open, signal, call_raising, call_, query, lift, when;
  repeat first
    [ progress cbn beta
    | lazymatch goal with
      | |- faithful (ret _) => apply faithful_ret
      | |- faithful (raise _) => apply faithful_raise
      | |- faithful (gets _) => apply faithful_gets
      | |- faithful (call _ _) =>
          apply faithful_call; intros w; cbn [step fst snd];
          first [reflexivity | apply surjective_pairing]
      | |- faithful (modify _) => apply faithful_modify
      | |- faithful (try_pass _) => apply faithful_try_pass
      | |- faithful (for_each _ _) => apply faithful_for_each; intros ?
      | |- faithful (bind _ _) => apply faithful_bind; [|intros ?]
      | |- faithful (match ?x with _ => _ end) => destruct x
      | |- faithful (if ?x then _ else _) => destruct x
      end ].

Lemma cleanup_faithful : @faithful W rt _ cleanup.
Proof. unfold cleanup. faithful. Qed.

Lemma signal_handler_faithful : @faithful W rt _ _signal_handler.
Proof. unfold _signal_handler. faithful. exact cleanup_faithful. Qed.

(** The calls a computation added, and the world it left. *)
Lemma faithful_emitted {A} (c : M (state W) A) s :
  @faithful W rt _ c ->
  performed (world s) (emitted s (snd (c s))) (world (snd (c s))).
Proof.
  intros Hc. destruct (Hc s) as (t & Htrace & Hdone).
  now rewrite (@emitted_app _ _ _ Htrace).
Qed.

(** C5.  [cleanup] always returns normally with nothing tracked; on a
    supervisor that tracks nothing it changes nothing and makes no call; and
    a second call straight after a first changes nothing, so two calls in a
    row end in the state one call ends in. *)
Theorem cleanup_idempotent s :
  fst (cleanup s) = inr tt /\
  processes (snd (cleanup s)) = [] /\
  (processes s = [] -> cleanup s = (inr tt, s)) /\
  cleanup (snd (cleanup s)) = (inr tt, snd (cleanup s)) /\
  (cleanup ;; cleanup) s = cleanup s.
Proof.
  assert (Hrun : exists s', cleanup s = (inr tt, s') /\ processes s' = []).
  { destruct (processes s) as [|process ps] eqn:Htracked.
    - exists s. split; [now apply cleanup_empty|exact Htracked].
    - destruct (cleanup_run s Htracked) as (_ & _ & s' & Hrun & Hnone & _).
      now exists s'. }
  destruct Hrun as (s' & Hrun & Hnone).
  split; [|split; [|split; [|split]]].
  - now rewrite Hrun.
  - now rewrite Hrun.
  - apply cleanup_empty.
  - rewrite Hrun. now apply cleanup_empty.
  - rewrite (@bind_ok _ _ _ _ _ _ _ _ Hrun), Hrun. now apply cleanup_empty.
Qed.

(** C6.  On a supervisor that tracks at least one process, the calls of
    [cleanup] are, in this order: the terminate pass over the tracked list,
    one sleep of half a unit, the kill pass over the tracked list.  These
    are the calls made on the world: made one after the other from the world
    [cleanup] was called in, each got the answer recorded (so a process is
    skipped only where its poll said it had exited, and signalled where its
    poll said it ran), and the world they leave is the world [cleanup]
    leaves.  The call returns normally and nothing is tracked afterwards,
    whatever the polls, signals and waits answered. *)
Theorem cleanup_sequence s (Htracked : processes s <> []) :
  exists t1 t2,
    emitted s (snd (cleanup s)) = (t1 ++ [EvSleep (1 # 2)] ++ t2)%list /\
    terminate_phase (processes s) t1 /\
    kill_phase (processes s) t2 /\
    performed (world s) (emitted s (snd (cleanup s))) (world (snd (cleanup s))) /\
    processes (snd (cleanup s)) = [] /\
    fst (cleanup s) = inr tt.
Proof.
  pose proof (@faithful_emitted _ cleanup s cleanup_faithful) as Hdone.
  destruct (processes s) as [|process ps] eqn:Hps; [contradiction|].
  destruct (cleanup_run s Hps) as (t1 & t2 & s' & Hrun & Hnone & Htrace & H1 & H2).
  exists t1, t2. rewrite Hrun in *. cbn [fst snd] in *.
  rewrite (@emitted_app _ _ _ Htrace) in *. auto 7.
Qed.

(** *** Start-up: refusals, launch arguments, tracking *)

(** [start_websocket_server] gives up before any call, leaving the
    supervisor as it was, when the [server] entry of the configuration is
    not a mapping ([AttributeError]) and when the backend script is missing
    ([FileNotFoundError] naming the script). *)
Theorem start_websocket_server_refuses s :
  (forall x, get "server" (config s) = Some x -> is_dict x = false ->
             start_websocket_server s = (inl AttributeError, s)) /\
  (forall port,
     config_get2 (config s) "server" "port" (VInt 8000) = inr port ->
     os_exists (world s) (ui_dir s // "websocket-server.py") = false ->
     start_websocket_server s
     = (inl (FileNotFoundError
               ("找不到 websocket-server.py: " ++ ui_dir s // "websocket-server.py")),
        s)).
Proof.
  unfold start_websocket_server. unfold_calls. split.
  - intros x Hx Hdict. unfold config_get2. rewrite Hx.
    destruct x; try reflexivity. discriminate.
  - intros port Hport Hmissing. rewrite Hport.
    cbn [fst snd ui_dir config processes world trace].
    rewrite Hmissing. reflexivity.
Qed.

(** [start_frontend_server] gives up before any call, leaving the
    supervisor as it was, when the [server] entry of the configuration is
    not a mapping and when the frontend directory is missing, whatever
    [dev_mode] is. *)
Theorem start_frontend_server_refuses (dev_mode : bool) s :
  (forall x, get "server" (config s) = Some x -> is_dict x = false ->
             start_frontend_server dev_mode s = (inl AttributeError, s)) /\
  (forall port,
     config_get2 (config s) "server" "port" (VInt 8000) = inr port ->
     os_exists (world s) (ui_dir s // "frontend") = false ->
     start_frontend_server dev_mode s
     = (inl (FileNotFoundError ("找不到 UI 目录: " ++ ui_dir s // "frontend")), s)).
Proof.
  unfold start_frontend_server. unfold_calls. split.
  - intros x Hx Hdict. unfold config_get2. rewrite Hx.
    destruct x; try reflexivity. discriminate.
  - intros port Hport Hmissing. rewrite Hport.
    cbn [fst snd ui_dir config processes world trace].
    rewrite Hmissing. reflexivity.
Qed.

(** How the backend is launched: the interpreter on the backend script,
    output to [websocket.log] in the working directory, and an environment
    that is [os.environ] with the three paths set and the working directory
    put in front of [PYTHONPATH] (alone if there was none); every other
    variable is passed on as it is.  The configuration plays no part. *)
Theorem start_websocket_server_launch s a res :
  In (EvPopen a res) (emitted s (snd (start_websocket_server s))) ->
  let here := os_cwd (world s) in
  let environ := os_environ (world s) in
  let w := os_open (world s) (here // "websocket.log") "a" in
  cmd a = [sys_executable w; ui_dir s // "websocket-server.py"] /\
  cwd a = os_cwd w /\
  stdout a = here // "websocket.log" /\
  get "AGENT_CONFIG_PATH" (env a)
  = Some (ui_dir s // "config" // "agent-config.temp.json") /\
  get "USER_WORKING_DIR" (env a) = Some here /\
  get "UI_TEMPLATE_DIR" (env a) = Some (ui_dir s) /\
  get "PYTHONPATH" (env a)
  = Some match get "PYTHONPATH" environ with
         | Some old => here ++ ":" ++ old
         | None => here
         end /\
  forall name,
    ~ In name ["AGENT_CONFIG_PATH"; "USER_WORKING_DIR"; "UI_TEMPLATE_DIR";
               "PYTHONPATH"] ->
    get name (env a) = get name environ.
Proof.
  unfold start_websocket_server. unfold_calls.
  branches; read_trace; intros H; among H; injection H as <- _;
    cbn [cmd cwd stdout env];
    repeat match goal with
           | Hpath : context [get _ (set _ _ _)] |- _ =>
               rewrite get_set_other in Hpath by discriminate
           end;
    repeat split;
    try (rewrite ?get_set_same, ?get_set_other by discriminate;
         rewrite ?get_set_same;
         first [reflexivity
               | cbn [String.append]; unfold path in *; congruence]);
    intros name Hname; cbn [In] in Hname;
    rewrite !get_set_other by (intros ->; tauto); reflexivity.
Qed.

(** How the frontend is launched: in the frontend directory, output to
    [frontend.log] in the working directory, with [FRONTEND_PORT] the
    configured dev port (3000 if none) and [VITE_WS_PORT] the configured
    server port (8000 if none), both as text. *)
Theorem start_frontend_server_launch (dev_mode : bool) s a res :
  In (EvPopen a res) (emitted s (snd (start_frontend_server dev_mode s))) ->
  exists server_port frontend_dev_port,
    config_get2 (config s) "server" "port" (VInt 8000) = inr server_port /\
    config_get2 (config s) "frontend" "devPort" (VInt 3000)
    = inr frontend_dev_port /\
    cwd a = ui_dir s // "frontend" /\
    get "FRONTEND_PORT" (env a) = Some (str_of frontend_dev_port) /\
    get "VITE_WS_PORT" (env a) = Some (str_of server_port) /\
    exists here, stdout a = here // "frontend.log".
Proof.
  unfold start_frontend_server. unfold_calls.
  destruct dev_mode; branches; read_trace; intros H; among H;
    injection H as <- _; cbn [cmd cwd stdout env];
    do 2 eexists; (split; [reflexivity|]); (split; [reflexivity|]);
    (split; [reflexivity|]);
    (split; [rewrite get_set_other by discriminate; apply get_set_same|]);
    (split; [apply get_set_same|]); eexists; reflexivity.
Qed.

(** Every process a start operation creates is tracked, whatever happens
    next: after [start_websocket_server] the tracked list is the former
    list followed by the processes created during the call; at most one is
    created, and a process returned is that one. *)
Theorem start_websocket_server_tracks s :
  processes (snd (start_websocket_server s))
  = (processes s ++ created (emitted s (snd (start_websocket_server s))))%list /\
  (length (created (emitted s (snd (start_websocket_server s)))) <= 1)%nat /\
  forall process,
    fst (start_websocket_server s) = inr process ->
    created (emitted s (snd (start_websocket_server s))) = [process].
Proof.
  unfold start_websocket_server. unfold_calls.
  branches; read_trace; cbn [created flat_map app length];
    rewrite ?app_nil_r;
    (split; [reflexivity|split; [auto|]]);
    intros process H; try discriminate H; injection H as <-; reflexivity.
Qed.

(** The same for [start_frontend_server]: the tracked list grows by exactly
    the processes created, at most one; a process returned is that one, and
    when [None] is returned none was created. *)
Theorem start_frontend_server_tracks (dev_mode : bool) s :
  processes (snd (start_frontend_server dev_mode s))
  = (processes s
     ++ created (emitted s (snd (start_frontend_server dev_mode s))))%list /\
  (length (created (emitted s (snd (start_frontend_server dev_mode s)))) <= 1)%nat /\
  forall result,
    fst (start_frontend_server dev_mode s) = inr result ->
    created (emitted s (snd (start_frontend_server dev_mode s)))
    = match result with Some process => [process] | None => [] end.
Proof.
  unfold start_frontend_server. unfold_calls.
  destruct dev_mode; branches; read_trace; cbn [created flat_map app length];
    rewrite ?app_nil_r;
    (split; [reflexivity|split; [auto|]]);
    intros result H; try discriminate H; injection H as <-; reflexivity.
Qed.

(** When [Popen] itself raises, either start operation raises the same
    exception and tracks nothing new. *)
Theorem start_popen_failure (dev_mode : bool) s a e :
  (In (EvPopen a (inl e)) (emitted s (snd (start_websocket_server s))) ->
   fst (start_websocket_server s) = inl e /\
   processes (snd (start_websocket_server s)) = processes s) /\
  (In (EvPopen a (inl e)) (emitted s (snd (start_frontend_server dev_mode s))) ->
   fst (start_frontend_server dev_mode s) = inl e /\
   processes (snd (start_frontend_server dev_mode s)) = processes s).
Proof.
  split.
  - unfold start_websocket_server. unfold_calls.
    branches; read_trace; intros H; among H;
      injection H as _ <-; split; reflexivity.
  - unfold start_frontend_server. unfold_calls.
    destruct dev_mode; branches; read_trace; intros H; among H;
      injection H as _ <-; split; reflexivity.
Qed.

(** The dependency install of [start_frontend_server] is [npm install] in
    the frontend directory, run only when [node_modules] is missing at the
    time it is looked for (after the warning, if the call fell back to dev
    mode); when it fails the call raises its exception, creates no process
    and leaves the tracked list as it was. *)
Theorem start_frontend_server_install (dev_mode : bool) s command dir raised :
  In (EvRun command dir raised)
     (emitted s (snd (start_frontend_server dev_mode s))) ->
  command = ["npm"; "install"] /\
  dir = ui_dir s // "frontend" /\
  os_exists (if dev_mode then world s
             else os_echo (world s) "警告: 未找到构建的静态文件，将使用开发模式")
            (ui_dir s // "frontend" // "node_modules") = false /\
  forall e, raised = Some e ->
    fst (start_frontend_server dev_mode s) = inl e /\
    spawned (emitted s (snd (start_frontend_server dev_mode s))) = [] /\
    processes (snd (start_frontend_server dev_mode s)) = processes s.
Proof.
  unfold start_frontend_server. unfold_calls.
  destruct dev_mode; branches; try discriminate;
    read_trace; intros H; among H;
    injection H as <- <- <-;
    (split; [reflexivity|split; [reflexivity|split; [reflexivity|]]]);
    intros e0 He; try discriminate He; injection He as <-;
    repeat split.
Qed.

(** *** What the supervisor never changes *)

Lemma keeps_ret {A} (a : A) : @keeps_settings W A (ret a).
Proof. intros s. now split. Qed.

Lemma keeps_raise {A} (e : exn) : @keeps_settings W A (raise e).
Proof. intros s. now split. Qed.

Lemma keeps_gets {A} (f : state W -> A) : @keeps_settings W _ (gets f).
Proof. intros s. now split. Qed.

Lemma keeps_call {A} (f : W -> W * A) (ev : A -> event) :
  @keeps_settings W _ (call f ev).
Proof. intros s. unfold call. destruct (f (world s)). now split. Qed.

Lemma keeps_modify (f : list proc -> list proc) :
  @keeps_settings W _ (modify (with_processes f)).
Proof. intros s. now split. Qed.

Lemma keeps_bind {A B} (c : M (state W) A) (k : A -> M (state W) B) :
  @keeps_settings W _ c -> (forall a, @keeps_settings W _ (k a)) ->
  @keeps_settings W _ (bind c k).
Proof.
  intros Hc Hk s. unfold bind.
  destruct (Hc s) as [Hconfig Hdir]. destruct (c s) as [[e|a] s1]; cbn [snd] in *.
  - now split.
  - destruct (Hk a s1) as [Hconfig' Hdir']. split; congruence.
Qed.

Lemma keeps_try_pass (body : M (state W) unit) :
  @keeps_settings W _ body -> @keeps_settings W _ (try_pass body).
Proof. intros Hbody s. exact (Hbody s). Qed.

Lemma keeps_for_each {A} (xs : list A) (body : A -> M (state W) unit) :
  (forall x, @keeps_settings W _ (body x)) -> @keeps_settings W _ (for_each xs body).
Proof.
  intros Hbody. induction xs as [|x xs IH]; cbn [for_each].
  - apply keeps_ret.
  - apply keeps_bind; [apply Hbody|intros _; exact IH].
Qed.

(** Break a computation into its calls and check each keeps the settings. *)
Ltac keeps :=
  unfold Popen, run_check, sleep, poll, terminate, kill, wait, read, echo,
    open, signal, call_raising, call_, query, lift, when;
  repeat first
    [ progress cbn beta
    | lazymatch goal with
      | |- keeps_settings (ret _) => apply keeps_ret
      | |- keeps_settings (raise _) => apply keeps_raise
      | |- keeps_settings (gets _) => apply keeps_gets
      | |- keeps_settings (call _ _) => apply keeps_call
      | |- keeps_settings (modify _) => apply keeps_modify
      | |- keeps_settings (try_pass _) => apply keeps_try_pass
      | |- keeps_settings (for_each _ _) => apply keeps_for_each; intros ?
      | |- keeps_settings (bind _ _) => apply keeps_bind; [|intros ?]
      | |- keeps_settings (match ?x with _ => _ end) => destruct x
      end ].

Lemma cleanup_keeps : @keeps_settings W _ cleanup.
Proof. unfold cleanup. keeps. Qed.

(** No operation of the supervisor changes the configuration or the
    template directory it was built with, whether it returns or raises. *)
Theorem supervisor_keeps_settings (dev_mode : bool) :
  @keeps_settings W _ start_websocket_server /\
  @keeps_settings W _ (start_frontend_server dev_mode) /\
  @keeps_settings W _ wait_for_processes /\
  @keeps_settings W _ cleanup /\
  @keeps_settings W _ _signal_handler.
Proof.
  split; [|split; [|split; [|split]]].
  - unfold start_websocket_server. keeps.
  - unfold start_frontend_server. keeps.
  - unfold wait_for_processes. keeps.
  - exact cleanup_keeps.
  - unfold _signal_handler. keeps. exact cleanup_keeps.
Qed.

(** *** Waiting, the signal handler, and whom cleanup addresses *)

Lemma wait_step process timeout s :
  wait process timeout s
  = (match snd (os_wait (world s) process timeout) with
     | Some e => inl e
     | None => inr tt
     end,
     State (ui_dir s) (config s) (processes s)
       (fst (os_wait (world s) process timeout))
       (trace s ++ [EvWait process timeout
                      (snd (os_wait (world s) process timeout))])%list).
Proof.
  unfold wait. unfold_calls.
  destruct (os_wait (world s) process timeout) as [w [e|]]; reflexivity.
Qed.

Lemma wait_loop ps : forall s,
  processes (snd (for_each ps (fun process => wait process None) s))
  = processes s /\
  ((fst (for_each ps (fun process => wait process None) s) = inr tt /\
    trace (snd (for_each ps (fun process => wait process None) s))
    = (trace s ++ map (fun process => EvWait process None None) ps)%list) \/
   exists e waited process rest,
     fst (for_each ps (fun process => wait process None) s) = inl e /\
     ps = (waited ++ process :: rest)%list /\
     trace (snd (for_each ps (fun process => wait process None) s))
     = (trace s ++ map (fun process => EvWait process None None) waited
          ++ [EvWait process None (Some e)])%list).
Proof.
  induction ps as [|p ps IH]; intros s.
  - cbn. rewrite app_nil_r. auto.
  - cbn [for_each]. unfold bind. rewrite wait_step.
    destruct (os_wait (world s) p None) as [w [e'|]]; cbn [fst snd].
    + split; [reflexivity|]. right. exists e', [], p, ps.
      cbn [fst snd trace map app]. auto.
    + match goal with
      | |- context [for_each ps _ ?st] => destruct (IH st) as [Hprocs Hcases]
      end.
      split; [exact Hprocs|].
      destruct Hcases as [[Hok Htrace]|(e & waited & q & rest & Hraise & Hps & Htrace)].
      * left. split; [exact Hok|].
        rewrite Htrace. cbn [trace map]. now rewrite <- app_assoc.
      * right. exists e, (p :: waited), q, rest.
        split; [exact Hraise|]. split; [now rewrite Hps|].
        rewrite Htrace. cbn [trace map app]. now rewrite <- app_assoc.
Qed.

(** [wait_for_processes] waits, without a timeout, on the tracked processes
    in their order.  If every wait returns, so does the call; if a wait
    raises, the call raises the same exception and the processes after
    that one are not waited on.  Either way the tracked list is what it
    was: waiting removes nothing. *)
Theorem wait_for_processes_spec s :
  processes (snd (wait_for_processes s)) = processes s /\
  (fst (wait_for_processes s) = inr tt ->
   emitted s (snd (wait_for_processes s))
   = map (fun process => EvWait process None None) (processes s)) /\
  (forall e, fst (wait_for_processes s) = inl e ->
   exists waited process rest,
     processes s = (waited ++ process :: rest)%list /\
     emitted s (snd (wait_for_processes s))
     = (map (fun process => EvWait process None None) waited
        ++ [EvWait process None (Some e)])%list).
Proof.
  unfold wait_for_processes.
  rewrite (@bind_ok _ _ _ (gets processes) _ s (processes s) s) by reflexivity.
  destruct (wait_loop (processes s) s)
    as [Hprocs [[Hok Htrace]|(e & waited & q & rest & Hraise & Hps & Htrace)]].
  - split; [exact Hprocs|split].
    + intros _. now apply emitted_app.
    + intros e He. congruence.
  - split; [exact Hprocs|split].
    + intros He. congruence.
    + intros e0 He. rewrite Hraise in He. injection He as <-.
      exists waited, q, rest. split; [exact Hps|now apply emitted_app].
Qed.

Lemma signal_handler_calls s :
  fst (_signal_handler s) = inr tt /\
  processes (snd (_signal_handler s)) = [] /\
  exists t,
    emitted s (snd (_signal_handler s))
    = EvSignal SIGINT SIG_IGN :: EvSignal SIGTERM SIG_IGN :: t /\
    (processes s = [] -> t = []) /\
    (processes s <> [] ->
     exists t1 t2,
       t = (t1 ++ [EvSleep (1 # 2)] ++ t2)%list /\
       terminate_phase (processes s) t1 /\
       kill_phase (processes s) t2).
Proof.
  unfold _signal_handler, signal, call_, call.
  erewrite bind_ok by reflexivity.
  erewrite bind_ok by reflexivity.
  match goal with |- context [cleanup ?st] => set (s2 := st) end.
  assert (Hprocs : processes s2 = processes s) by reflexivity.
  assert (Htrace : trace s2
                   = (trace s ++ [EvSignal SIGINT SIG_IGN;
                                  EvSignal SIGTERM SIG_IGN])%list).
  { subst s2. cbn [trace]. now rewrite <- app_assoc. }
  destruct (processes s) as [|process ps] eqn:Htracked.
  - rewrite (cleanup_empty s2 Hprocs). cbn [fst snd].
    split; [reflexivity|split; [exact Hprocs|]].
    exists []. split; [now apply emitted_app|].
    split; [reflexivity|]. intros Hne. now destruct Hne.
  - destruct (@cleanup_run s2 process ps Hprocs)
      as (t1 & t2 & s' & Hrun & Hnone & Htrace' & H1 & H2).
    rewrite Hrun. cbn [fst snd].
    split; [reflexivity|split; [exact Hnone|]].
    exists (t1 ++ [EvSleep (1 # 2)] ++ t2)%list. split.
    + apply emitted_app. rewrite Htrace', Htrace, <- app_assoc. reflexivity.
    + split; [discriminate|]. intros _. exists t1, t2. auto.
Qed.

(** [_signal_handler] first sets SIGINT and then SIGTERM to be ignored, then
    does what [cleanup] does (the terminate pass, the sleep and the kill
    pass when something is tracked, nothing more otherwise).  These are the
    calls made on the world: made one after the other from the world the
    handler was called in, each got the answer recorded, and the world they
    leave is the world the handler leaves.  The handler always returns
    normally and leaves nothing tracked. *)
Theorem signal_handler_spec s :
  fst (_signal_handler s) = inr tt /\
  processes (snd (_signal_handler s)) = [] /\
  performed (world s) (emitted s (snd (_signal_handler s)))
    (world (snd (_signal_handler s))) /\
  exists t,
    emitted s (snd (_signal_handler s))
    = EvSignal SIGINT SIG_IGN :: EvSignal SIGTERM SIG_IGN :: t /\
    (processes s = [] -> t = []) /\
    (processes s <> [] ->
     exists t1 t2,
       t = (t1 ++ [EvSleep (1 # 2)] ++ t2)%list /\
       terminate_phase (processes s) t1 /\
       kill_phase (processes s) t2).
Proof.
  destruct (signal_handler_calls s) as (Hret & Hnone & Hcalls).
  split; [exact Hret|split; [exact Hnone|split; [|exact Hcalls]]].
  exact (@faithful_emitted _ _signal_handler s signal_handler_faithful).
Qed.

Lemma terminate_phase_concerns tracked ps t :
  terminate_phase ps t -> incl ps tracked -> Forall (concerns tracked) t.
Proof.
  induction 1 as [|p rc ps t _ IH|p raised ps t _ IH]; intros Hincl.
  - constructor.
  - constructor; [apply Hincl; now left|].
    apply IH. intros q Hq. apply Hincl. now right.
  - constructor; [apply Hincl; now left|].
    constructor; [apply Hincl; now left|].
    apply IH. intros q Hq. apply Hincl. now right.
Qed.

Lemma kill_phase_concerns tracked ps t :
  kill_phase ps t -> incl ps tracked -> Forall (concerns tracked) t.
Proof.
  induction 1 as [|p rc ps t _ IH|p raised ps t _ IH|p e ps t _ IH];
    intros Hincl; [constructor| | |];
    (assert (Hp : In p tracked) by (apply Hincl; now left));
    repeat (constructor; [exact Hp|]);
    apply IH; intros q Hq; apply Hincl; now right.
Qed.

(** [cleanup] creates no process, prints nothing and changes no signal
    disposition: every call it makes is a sleep, or a poll, signal or wait
    on a process that was tracked when it was called. *)
Theorem cleanup_only_tracked s :
  Forall (concerns (processes s)) (emitted s (snd (cleanup s))).
Proof.
  destruct (processes s) as [|process ps] eqn:Htracked.
  - rewrite (cleanup_empty s Htracked). cbn [snd].
    rewrite emitted_nil by reflexivity. constructor.
  - destruct (@cleanup_run s process ps Htracked)
      as (t1 & t2 & s' & Hrun & _ & Htrace & H1 & H2).
    rewrite Hrun. cbn [snd]. rewrite (@emitted_app _ _ _ Htrace).
    apply Forall_app. split.
    + eapply terminate_phase_concerns; [exact H1|apply incl_refl].
    + constructor; [exact I|].
      eapply kill_phase_concerns; [exact H2|apply incl_refl].
Qed.

(** A process a start operation returns was polled once and found running,
    right after a sleep of 2 units for the backend and 3 for the frontend,
    itself right after the process was created. *)
Theorem start_settles (dev_mode : bool) s process :
  (fst (start_websocket_server s) = inr process ->
   exists a file m1 m2,
     emitted s (snd (start_websocket_server s))
     = [EvOpen file "a"; EvPopen a (inr process); EvSleep (2 # 1);
        EvPoll process None; EvEcho m1; EvEcho m2]) /\
  (fst (start_frontend_server dev_mode s) = inr (Some process) ->
   exists a m,
     ends_with (emitted s (snd (start_frontend_server dev_mode s)))
       [EvPopen a (inr process); EvSleep (3 # 1); EvPoll process None;
        EvEcho m]).
Proof.
  split.
  - unfold start_websocket_server. unfold_calls.
    branches; read_trace; intros H; try discriminate H;
      injection H as <-; do 4 eexists; reflexivity.
  - unfold start_frontend_server. unfold_calls.
    destruct dev_mode; branches; read_trace; intros H; try discriminate H;
      injection H as <-; do 2 eexists;
      repeat first [apply ends_with_refl | apply ends_with_cons].
Qed.

End Supervision.

(** ** Sample runs in the simulated world *)

Lemma start_websocket_server_exit_witness :
  In (EvPoll 0%nat (Some 1%Z))
     (emitted (manager backend_crashes)
        (snd (start_websocket_server (manager backend_crashes)))) /\
  fst (start_websocket_server (manager backend_crashes))
  = inl (RuntimeError "WebSocket 服务器启动失败") /\
  processes (snd (start_websocket_server (manager backend_crashes)))
  = (processes (manager backend_crashes) ++ [0%nat])%list.
Proof.
  assert (H : In (EvPoll 0%nat (Some 1%Z))
                 (emitted (manager backend_crashes)
                    (snd (start_websocket_server (manager backend_crashes)))))
    by (vm_compute; tauto).
  split; [exact H|].
  exact (@start_websocket_server_exit sim sim_runtime
           (manager backend_crashes) 0%nat 1%Z H).
Defined.

(** C1, as the claim has it, fails: the backend script exits at once, the
    poll finds it exited, and the supervisor, which tracked nothing, now
    tracks the failed process. *)
Lemma start_websocket_server_exit_tracks_failed :
  In (EvPoll 0%nat (Some 1%Z))
     (emitted (manager backend_crashes)
        (snd (start_websocket_server (manager backend_crashes)))) /\
  fst (start_websocket_server (manager backend_crashes))
  = inl (RuntimeError "WebSocket 服务器启动失败") /\
  processes (manager backend_crashes) = [] /\
  processes (snd (start_websocket_server (manager backend_crashes))) = [0%nat] /\
  processes (snd (start_websocket_server (manager backend_crashes)))
  <> processes (manager backend_crashes).
Proof.
  vm_compute. repeat split; try tauto. discriminate.
Qed.

Lemma start_frontend_server_command_witness :
  In (EvPopen
        (PopenArgs ["npm"; "run"; "dev"] "/ui/frontend"
           [("PATH", "/usr/bin"); ("FRONTEND_PORT", "3000");
            ("VITE_WS_PORT", "50002")]
           "/work/frontend.log")
        (inr 0%nat))
     (emitted (manager fresh) (snd (start_frontend_server false (manager fresh)))) /\
  cmd (PopenArgs ["npm"; "run"; "dev"] "/ui/frontend"
         [("PATH", "/usr/bin"); ("FRONTEND_PORT", "3000");
          ("VITE_WS_PORT", "50002")]
         "/work/frontend.log")
  = ["npm"; "run"; "dev"] /\
  (false = false ->
   os_exists (world (manager fresh))
     (ui_dir (manager fresh) // "frontend" // "ui-static") = false).
Proof.
  assert (H : In (EvPopen
                    (PopenArgs ["npm"; "run"; "dev"] "/ui/frontend"
                       [("PATH", "/usr/bin"); ("FRONTEND_PORT", "3000");
                        ("VITE_WS_PORT", "50002")]
                       "/work/frontend.log")
                    (inr 0%nat))
                 (emitted (manager fresh)
                    (snd (start_frontend_server false (manager fresh)))))
    by (vm_compute; tauto).
  split; [exact H|].
  exact (@start_frontend_server_command sim sim_runtime false
           (manager fresh) _ _ H).
Defined.

(** C3, as the claim has it, fails: asked for a build ([dev_mode] false)
    where no prebuilt assets exist, the one process created runs the
    dev-server command, not the build command. *)
Lemma start_frontend_server_build_runs_dev :
  fst (start_frontend_server false (manager fresh)) = inr (Some 0%nat) /\
  spawned (emitted (manager fresh)
             (snd (start_frontend_server false (manager fresh))))
  = [["npm"; "run"; "dev"]] /\
  ~ In ["npm"; "run"; "build"]
       (spawned (emitted (manager fresh)
                   (snd (start_frontend_server false (manager fresh))))).
Proof.
  vm_compute. repeat split. intros [H|[]]. discriminate H.
Qed.

Lemma start_frontend_server_exit_witness :
  In (EvPoll 0%nat (Some 1%Z))
     (emitted (manager port_taken)
        (snd (start_frontend_server true (manager port_taken)))) /\
  In (EvRead "/work/frontend.log"
        (inr "Error: listen EADDRINUSE: address already in use :::3000"))
     (emitted (manager port_taken)
        (snd (start_frontend_server true (manager port_taken)))) /\
  fst (start_frontend_server true (manager port_taken))
  = inl (PortInUseError (VInt 3000)).
Proof.
  assert (H : In (EvPoll 0%nat (Some 1%Z))
                 (emitted (manager port_taken)
                    (snd (start_frontend_server true (manager port_taken)))))
    by (vm_compute; tauto).
  assert (Hread : In (EvRead "/work/frontend.log"
                        (inr "Error: listen EADDRINUSE: address already in use :::3000"))
                     (emitted (manager port_taken)
                        (snd (start_frontend_server true (manager port_taken)))))
    by (vm_compute; tauto).
  split; [exact H|split; [exact Hread|]].
  destruct (@start_frontend_server_exit sim sim_runtime true
              (manager port_taken) 0%nat 1%Z _ _ H Hread)
    as (port & a & earlier & w & Hport & _ & _ & _ & _ & _ & Hraise & _).
  rewrite Hraise. injection Hport as <-. reflexivity.
Defined.

(** Where the log cannot be decoded, the child that exited at once makes
    the call raise the error of the read, and the process stays tracked. *)
Example start_frontend_server_undecodable_log :
  In (EvPoll 0%nat (Some 1%Z))
     (emitted (manager port_taken)
        (snd (@start_frontend_server sim sim_undecodable true
                (manager port_taken)))) /\
  In (EvRead "/work/frontend.log" (inl UnicodeDecodeError))
     (emitted (manager port_taken)
        (snd (@start_frontend_server sim sim_undecodable true
                (manager port_taken)))) /\
  fst (@start_frontend_server sim sim_undecodable true (manager port_taken))
  = inl UnicodeDecodeError /\
  processes (snd (@start_frontend_server sim sim_undecodable true
                    (manager port_taken))) = [0%nat].
Proof. vm_compute. tauto. Qed.

(** With the marker in the log the failure names port 3000; without it the
    failure is the generic one. *)
Example start_frontend_server_exit_port :
  fst (start_frontend_server true (manager port_taken))
  = inl (RuntimeError "端口 3000 已被占用").
Proof. reflexivity. Qed.

Example start_frontend_server_exit_generic :
  fst (start_frontend_server true
         (manager (Sim (paths fresh)
                       [("/work/frontend.log", "npm ERR! missing script: dev")]
                       [["npm"; "run"; "dev"]] [] [])))
  = inl (RuntimeError "前端服务器启动失败，请查看 frontend.log 了解详情").
Proof. reflexivity. Qed.

Lemma start_frontend_server_static_witness :
  fst (start_frontend_server false (manager prebuilt)) = inr None /\
  processes (snd (start_frontend_server false (manager prebuilt)))
  = processes (manager prebuilt) /\
  spawned (emitted (manager prebuilt)
             (snd (start_frontend_server false (manager prebuilt)))) = [].
Proof.
  destruct (@start_frontend_server_static sim sim_runtime (manager prebuilt)
              (VInt 50002) eq_refl eq_refl eq_refl) as (Hret & Hsame & Hcalls).
  split; [exact Hret|split; [exact Hsame|]].
  rewrite Hcalls. reflexivity.
Defined.

Lemma startup_order_witness :
  processes (started fresh) = [0%nat; 1%nat] /\
  hd_error (processes (started fresh)) = Some 0%nat.
Proof.
  apply (@startup_order sim sim_runtime true (manager fresh)
           (snd (start_websocket_server (manager fresh))) (started fresh)
           0%nat 1%nat);
    vm_compute; reflexivity.
Defined.

Example cleanup_on_nothing :
  cleanup (manager fresh) = (inr tt, manager fresh).
Proof. reflexivity. Qed.

(** Two processes run and the second ignores SIGTERM: both are sent the
    terminate signal, then after the sleep only the second is killed and
    waited on. *)
Example cleanup_sample :
  processes (started stubborn_frontend) = [0%nat; 1%nat] /\
  emitted (started stubborn_frontend) (snd (cleanup (started stubborn_frontend)))
  = [ EvPoll 0%nat None; EvTerminate 0%nat None;
      EvPoll 1%nat None; EvTerminate 1%nat None;
      EvSleep (1 # 2);
      EvPoll 0%nat (Some (-15)%Z);
      EvPoll 1%nat None; EvKill 1%nat None; EvWait 1%nat (Some (1 # 2)) None ] /\
  processes (snd (cleanup (started stubborn_frontend))) = [].
Proof. vm_compute. repeat split. Qed.

Lemma cleanup_sequence_witness :
  processes (started stubborn_frontend) <> [] /\
  exists t1 t2,
    emitted (started stubborn_frontend)
      (snd (cleanup (started stubborn_frontend)))
    = (t1 ++ [EvSleep (1 # 2)] ++ t2)%list /\
    terminate_phase (processes (started stubborn_frontend)) t1 /\
    kill_phase (processes (started stubborn_frontend)) t2 /\
    performed (world (started stubborn_frontend))
      (emitted (started stubborn_frontend)
         (snd (cleanup (started stubborn_frontend))))
      (world (snd (cleanup (started stubborn_frontend)))) /\
    processes (snd (cleanup (started stubborn_frontend))) = [] /\
    fst (cleanup (started stubborn_frontend)) = inr tt.
Proof.
  assert (H : processes (started stubborn_frontend) <> [])
    by (vm_compute; discriminate).
  split; [exact H|].
  exact (@cleanup_sequence sim sim_runtime (started stubborn_frontend) H).
Defined.

(** ** Sample runs for the further properties *)

Lemma deep_merge_key_order_witness :
  NoDup (keys sample_override) /\
  keys (UIConfigManager._deep_merge UIConfigManager.DEFAULT_CONFIG sample_override)
  = ["agent"; "ui"; "files"; "websocket"; "server"; "frontend"].
Proof.
  assert (Hnd : NoDup (keys sample_override))
    by (repeat constructor; simpl; intuition discriminate).
  split; [exact Hnd|].
  rewrite (@deep_merge_key_order UIConfigManager.DEFAULT_CONFIG sample_override Hnd).
  reflexivity.
Defined.

Lemma deep_merge_disjoint_witness :
  NoDup (keys sample_override) /\
  (forall k, In k (keys sample_override) -> has_key k (@nil (string * value)) = false) /\
  UIConfigManager._deep_merge [] sample_override = sample_override.
Proof.
  assert (Hnd : NoDup (keys sample_override))
    by (repeat constructor; simpl; intuition discriminate).
  assert (Hnew : forall k, In k (keys sample_override) ->
                           has_key k (@nil (string * value)) = false)
    by (intros k _; reflexivity).
  split; [exact Hnd|split; [exact Hnew|]].
  exact (@deep_merge_disjoint [] sample_override Hnd Hnew).
Defined.

Lemma deep_merge_self_witness :
  unique_keys (VDict UIConfigManager.DEFAULT_CONFIG) /\
  UIConfigManager._deep_merge UIConfigManager.DEFAULT_CONFIG
    UIConfigManager.DEFAULT_CONFIG
  = UIConfigManager.DEFAULT_CONFIG.
Proof.
  assert (Hu : unique_keys (VDict UIConfigManager.DEFAULT_CONFIG))
    by (repeat (constructor; cbn [keys map fst snd In];
                try (intuition discriminate))).
  split; [exact Hu|].
  exact (@deep_merge_self UIConfigManager.DEFAULT_CONFIG Hu).
Defined.

Lemma deep_merge_idempotent_witness :
  unique_keys (VDict sample_override) /\
  UIConfigManager._deep_merge
    (UIConfigManager._deep_merge UIConfigManager.DEFAULT_CONFIG sample_override)
    sample_override
  = UIConfigManager._deep_merge UIConfigManager.DEFAULT_CONFIG sample_override.
Proof.
  assert (Hu : unique_keys (VDict sample_override))
    by (repeat (constructor; cbn [keys map fst snd In];
                try (intuition discriminate))).
  split; [exact Hu|].
  exact (@deep_merge_idempotent UIConfigManager.DEFAULT_CONFIG sample_override Hu).
Defined.

Lemma update_from_cli_effect_witness :
  sections_ok UIConfigManager.DEFAULT_CONFIG /\
  agent_ok [("agent", VStr "pkg.mod:myAgent"); ("port", VInt 8080);
            ("host", VStr "0.0.0.0")] /\
  lookup2 (snd (UIConfigManager.update_from_cli
                  [("agent", VStr "pkg.mod:myAgent"); ("port", VInt 8080);
                   ("host", VStr "0.0.0.0")]
                  UIConfigManager.DEFAULT_CONFIG)) "server" "host"
  = Some (VList [VStr "0.0.0.0"]) /\
  lookup2 (snd (UIConfigManager.update_from_cli
                  [("agent", VStr "pkg.mod:myAgent"); ("port", VInt 8080);
                   ("host", VStr "0.0.0.0")]
                  UIConfigManager.DEFAULT_CONFIG)) "websocket" "port"
  = Some (VInt 8000).
Proof.
  assert (Hok : sections_ok UIConfigManager.DEFAULT_CONFIG)
    by (repeat split; eexists; reflexivity).
  assert (Hagent : agent_ok [("agent", VStr "pkg.mod:myAgent");
                             ("port", VInt 8080); ("host", VStr "0.0.0.0")])
    by (right; eexists; reflexivity).
  split; [exact Hok|split; [exact Hagent|]].
  destruct (@update_from_cli_effect _ _ Hok Hagent) as (_ & _ & Hlook).
  split; rewrite Hlook; reflexivity.
Defined.

Lemma update_from_cli_idempotent_witness :
  sections_ok UIConfigManager.DEFAULT_CONFIG /\
  agent_ok [("agent", VStr "pkg.mod:myAgent"); ("port", VInt 8080);
            ("host", VStr "0.0.0.0")] /\
  fst (UIConfigManager.update_from_cli
         [("agent", VStr "pkg.mod:myAgent"); ("port", VInt 8080);
          ("host", VStr "0.0.0.0")]
         (snd (UIConfigManager.update_from_cli
                 [("agent", VStr "pkg.mod:myAgent"); ("port", VInt 8080);
                  ("host", VStr "0.0.0.0")]
                 UIConfigManager.DEFAULT_CONFIG)))
  = inr tt.
Proof.
  assert (Hok : sections_ok UIConfigManager.DEFAULT_CONFIG)
    by (repeat split; eexists; reflexivity).
  assert (Hagent : agent_ok [("agent", VStr "pkg.mod:myAgent");
                             ("port", VInt 8080); ("host", VStr "0.0.0.0")])
    by (right; eexists; reflexivity).
  split; [exact Hok|split; [exact Hagent|]].
  rewrite (@update_from_cli_idempotent _ _ Hok Hagent). reflexivity.
Defined.

(** A host alone on a configuration that has lost its [websocket] section:
    the server host is replaced before the call fails. *)
Example update_from_cli_partial :
  UIConfigManager.update_from_cli [("host", VStr "0.0.0.0")]
    [("server", VDict [("port", VInt 50002)])]
  = (inl (KeyError "websocket"),
     [("server", VDict [("port", VInt 50002);
                        ("host", VList [VStr "0.0.0.0"])])]).
Proof. reflexivity. Qed.

Lemma start_websocket_server_launch_witness :
  In (EvPopen
        (PopenArgs ["/usr/bin/python3"; "/ui/websocket-server.py"] "/work"
           [("PATH", "/usr/bin");
            ("AGENT_CONFIG_PATH", "/ui/config/agent-config.temp.json");
            ("USER_WORKING_DIR", "/work"); ("UI_TEMPLATE_DIR", "/ui");
            ("PYTHONPATH", "/work")]
           "/work/websocket.log")
        (inr 0%nat))
     (emitted (manager fresh) (snd (start_websocket_server (manager fresh)))) /\
  get "PYTHONPATH"
    [("PATH", "/usr/bin");
     ("AGENT_CONFIG_PATH", "/ui/config/agent-config.temp.json");
     ("USER_WORKING_DIR", "/work"); ("UI_TEMPLATE_DIR", "/ui");
     ("PYTHONPATH", "/work")]
  = Some "/work" /\
  get "PATH"
    [("PATH", "/usr/bin");
     ("AGENT_CONFIG_PATH", "/ui/config/agent-config.temp.json");
     ("USER_WORKING_DIR", "/work"); ("UI_TEMPLATE_DIR", "/ui");
     ("PYTHONPATH", "/work")]
  = Some "/usr/bin".
Proof.
  assert (H : In (EvPopen
        (PopenArgs ["/usr/bin/python3"; "/ui/websocket-server.py"] "/work"
           [("PATH", "/usr/bin");
            ("AGENT_CONFIG_PATH", "/ui/config/agent-config.temp.json");
            ("USER_WORKING_DIR", "/work"); ("UI_TEMPLATE_DIR", "/ui");
            ("PYTHONPATH", "/work")]
           "/work/websocket.log")
        (inr 0%nat))
     (emitted (manager fresh) (snd (start_websocket_server (manager fresh)))))
    by (vm_compute; tauto).
  split; [exact H|].
  destruct (@start_websocket_server_launch sim sim_runtime (manager fresh) _ _ H)
    as (_ & _ & _ & _ & _ & _ & Hpath & Hrest).
  split.
  - exact Hpath.
  - apply (Hrest "PATH"). cbn [In]. intuition discriminate.
Defined.

Lemma start_frontend_server_launch_witness :
  In (EvPopen
        (PopenArgs ["npm"; "run"; "dev"] "/ui/frontend"
           [("PATH", "/usr/bin"); ("FRONTEND_PORT", "3000");
            ("VITE_WS_PORT", "50002")]
           "/work/frontend.log")
        (inr 0%nat))
     (emitted (manager fresh) (snd (start_frontend_server true (manager fresh)))) /\
  exists server_port frontend_dev_port,
    config_get2 (config (manager fresh)) "server" "port" (VInt 8000)
    = inr server_port /\
    config_get2 (config (manager fresh)) "frontend" "devPort" (VInt 3000)
    = inr frontend_dev_port /\
    "/ui/frontend" = ui_dir (manager fresh) // "frontend" /\
    get "FRONTEND_PORT"
      [("PATH", "/usr/bin"); ("FRONTEND_PORT", "3000"); ("VITE_WS_PORT", "50002")]
    = Some (str_of frontend_dev_port) /\
    get "VITE_WS_PORT"
      [("PATH", "/usr/bin"); ("FRONTEND_PORT", "3000"); ("VITE_WS_PORT", "50002")]
    = Some (str_of server_port) /\
    exists here, "/work/frontend.log" = here // "frontend.log".
Proof.
  assert (H : In (EvPopen
        (PopenArgs ["npm"; "run"; "dev"] "/ui/frontend"
           [("PATH", "/usr/bin"); ("FRONTEND_PORT", "3000");
            ("VITE_WS_PORT", "50002")]
           "/work/frontend.log")
        (inr 0%nat))
     (emitted (manager fresh) (snd (start_frontend_server true (manager fresh)))))
    by (vm_compute; tauto).
  split; [exact H|].
  exact (@start_frontend_server_launch sim sim_runtime true (manager fresh) _ _ H).
Defined.

Lemma start_frontend_server_install_witness :
  In (EvRun ["npm"; "install"] "/ui/frontend" None)
     (emitted (manager uninstalled)
        (snd (start_frontend_server true (manager uninstalled)))) /\
  os_exists (world (manager uninstalled))
    (ui_dir (manager uninstalled) // "frontend" // "node_modules") = false.
Proof.
  assert (H : In (EvRun ["npm"; "install"] "/ui/frontend" None)
                 (emitted (manager uninstalled)
                    (snd (start_frontend_server true (manager uninstalled)))))
    by (vm_compute; tauto).
  split; [exact H|].
  destruct (@start_frontend_server_install sim sim_runtime true
              (manager uninstalled) _ _ _ H) as (_ & _ & Hmissing & _).
  exact Hmissing.
Defined.

(** Waiting on two processes that end, and the handler on a supervisor that
    tracks nothing. *)
Example wait_for_processes_sample :
  emitted (started fresh) (snd (wait_for_processes (started fresh)))
  = [EvWait 0%nat None None; EvWait 1%nat None None] /\
  processes (snd (wait_for_processes (started fresh))) = [0%nat; 1%nat].
Proof. vm_compute. split; reflexivity. Qed.

Example signal_handler_sample :
  emitted (manager fresh) (snd (_signal_handler (manager fresh)))
  = [EvSignal SIGINT SIG_IGN; EvSignal SIGTERM SIG_IGN].
Proof. reflexivity. Qed.

(** In the world [cleanup] leaves, the first process ended on the terminate
    signal and the second, which ignored it, on the kill. *)
Example cleanup_sample_world :
  status (world (started stubborn_frontend)) = [None; None] /\
  status (world (snd (cleanup (started stubborn_frontend))))
  = [Some (-15)%Z; Some (-9)%Z].
Proof. split; reflexivity. Qed.

Lemma load_config_spec_witness :
  NoDup (keys UIConfigManager.DEFAULT_CONFIG) /\
  exists config,
    UIConfigManager._load_config None UIConfigManager.DEFAULT_CONFIG
    = (inr config, UIConfigManager.DEFAULT_CONFIG) /\
    UIConfigManager.view UIConfigManager.DEFAULT_CONFIG config
    = UIConfigManager.DEFAULT_CONFIG.
Proof.
  assert (HD : NoDup (keys UIConfigManager.DEFAULT_CONFIG))
    by (repeat constructor; simpl; intuition discriminate).
  split; [exact HD|].
  exact (proj1 (@load_config_spec UIConfigManager.DEFAULT_CONFIG HD)).
Defined.

(** A load that merged a user file leaves its mark on the class attribute:
    the next manager, built without a file, does not get the literal
    defaults. *)
Example later_load_sees_merge :
  lookup2
    (UIConfigManager.view
       (snd (UIConfigManager._load_config (Some (VDict sample_override))
               UIConfigManager.DEFAULT_CONFIG))
       (UIConfigManager.copy
          (snd (UIConfigManager._load_config (Some (VDict sample_override))
                  UIConfigManager.DEFAULT_CONFIG))))
    "ui" "title"
  = Some (VStr "Lab") /\
  lookup2 UIConfigManager.DEFAULT_CONFIG "ui" "title"
  = Some (VStr "DP Agent Assistant").
Proof. split; reflexivity. Qed.

(** So does an override from the command line on a configuration loaded
    without a file: the server section it writes to is the class
    attribute's own. *)
Example later_load_sees_override :
  lookup2
    (UIConfigManager.class_default
       (snd (UIConfigManager.update_from_cli_in_place [("port", VInt 8080)]
               (UIConfigManager.Store UIConfigManager.DEFAULT_CONFIG
                  (UIConfigManager.copy UIConfigManager.DEFAULT_CONFIG)))))
    "server" "port"
  = Some (VInt 8080).
Proof. reflexivity. Qed.
